(** * The pull-request file-diff tool of [src/tools/repos.ts]

    A shallow embedding of the handler registered under
    [repo_read_pull_request_file_diffs] and of the helpers it closes over:
    the line splitter, the loop that turns the parts returned by the [diff]
    package into diff regions, [extractContext], the no-difference fallback
    and the Markdown report loop with its per-file content fetches.

    JavaScript numbers that are used as indices and counters are integers
    ([Z]); strings are [string]; arrays are lists.  The remote Git API and
    the [diffLines] routine of the [diff] package are collaborators whose
    code is not part of the tool: they are section variables. *)

From Stdlib Require Import ZArith List String Ascii Bool Lia DecimalString.
Import ListNotations.
Local Open Scope string_scope.
Local Open Scope Z_scope.

(** ** JavaScript primitives used by the tool *)

Module Js.

(** The line feed, [\n]. *)
Definition LF : ascii := "010"%char.
Definition nl : string := String LF EmptyString.

(** [s.split("\n")]: the pieces of [s] between line feeds.  The result
    always has one more element than [s] has line feeds. *)
Fixpoint split (s : string) : list string :=
  match s with
  | EmptyString => [""]
  | String c rest =>
      if Ascii.eqb c LF then "" :: split rest
      else match split rest with
           | [] => [String c ""]
           | piece :: pieces => String c piece :: pieces
           end
  end.

(** [pieces.join("\n")]. *)
Definition join (pieces : list string) : string := String.concat nl pieces.

(** [n.toString()] for an integer [n]. *)
Definition toString (n : Z) : string := NilZero.string_of_int (Z.to_int n).

Fixpoint spaces (n : nat) : string :=
  match n with
  | O => ""
  | S k => String " " (spaces k)
  end.

(** [s.padStart(width)]: blanks on the left up to [width] characters. *)
Definition padStart (width : nat) (s : string) : string :=
  spaces (width - String.length s) ++ s.

(** Truthiness of an optional string: [undefined] and [""] are falsy. *)
Definition truthy (o : option string) : bool :=
  match o with
  | Some s => negb (String.eqb s "")
  | None => false
  end.

(** The relative index of [Array.prototype.slice]: a negative argument
    counts from the end, and the result is clamped to [0, len]. *)
Definition relativeIndex (len i : Z) : Z :=
  if i <? 0 then Z.max (len + i) 0 else Z.min i len.

(** [zrange k n] is [k, k+1, ..., k+n-1]. *)
Fixpoint zrange (k : Z) (n : nat) : list Z :=
  match n with
  | O => []
  | S m => k :: zrange (k + 1) m
  end.

(** The indices that [arr.slice(start, end)] reads on an array of length
    [len], in the order it reads them. *)
Definition sliceIndices (len start end_ : Z) : list Z :=
  let k := relativeIndex len start in
  let final := relativeIndex len end_ in
  zrange k (Z.to_nat (final - k)).

(** The element at an integer index, when there is one. *)
Definition at_ {A} (arr : list A) (i : Z) : option A :=
  if i <? 0 then None else nth_error arr (Z.to_nat i).

Fixpoint present {A} (l : list (option A)) : list A :=
  match l with
  | [] => []
  | Some x :: rest => x :: present rest
  | None :: rest => present rest
  end.

(** [arr.slice(start, end)]. *)
Definition slice {A} (arr : list A) (start end_ : Z) : list A :=
  present (map (at_ arr) (sliceIndices (Z.of_nat (List.length arr)) start end_)).

(** [arr.map((x, index) => f(x, index))], the index counted from [from]. *)
Fixpoint mapIndexFrom {A B} (f : A -> Z -> B) (from : Z) (arr : list A) : list B :=
  match arr with
  | [] => []
  | x :: rest => f x from :: mapIndexFrom f (from + 1) rest
  end.

Definition mapIndex {A B} (f : A -> Z -> B) (arr : list A) : list B :=
  mapIndexFrom f 0 arr.

End Js.

(** ** [extractContext] (repos.ts, lines 165-181) *)

Record Context := mkContext {
  before : string;
  changed : string;
  after : string
}.

(** [formatLinesWithNumbers]: every line prefixed by its number, right
    aligned on four columns. *)
Definition formatLinesWithNumbers (lineSlice : list string) (startNum : Z) : string :=
  Js.join
    (Js.mapIndex
       (fun line index =>
          let lineNum := startNum + index in
          Js.padStart 4 (Js.toString lineNum) ++ ": " ++ line)
       lineSlice).

Definition extractContext (lines : list string) (start end_ context startLineNumber : Z)
  : Context :=
  let beforeStart := Z.max 0 (start - context) in
  let afterEnd := Z.min (Z.of_nat (List.length lines)) (end_ + context) in
  {| before := formatLinesWithNumbers (Js.slice lines beforeStart start)
                 (startLineNumber + beforeStart);
     changed := formatLinesWithNumbers (Js.slice lines start end_)
                  (startLineNumber + start);
     after := formatLinesWithNumbers (Js.slice lines end_ afterEnd)
                (startLineNumber + end_) |}.

(** The indices of [lines] that one call of [extractContext] reads: those of
    its three slices. *)
Definition extractContextReads (len start end_ context : Z) : list Z :=
  let beforeStart := Z.max 0 (start - context) in
  let afterEnd := Z.min len (end_ + context) in
  (Js.sliceIndices len beforeStart start
     ++ Js.sliceIndices len start end_
     ++ Js.sliceIndices len end_ afterEnd)%list.

(** ** Data of the collaborators *)

(** What a [throw] or a rejected promise carries: an [Error] object with its
    message, or any other value. *)
Inductive Thrown :=
| ErrorObject (message : string)
| OtherValue.

Inductive Outcome (A : Type) :=
| Resolved (a : A)
| Rejected (e : Thrown).
Arguments Resolved {A} a.
Arguments Rejected {A} e.

(** A readable stream as [streamToString] observes it: it ends after its
    chunks, whose concatenation is [text], or it emits ['error']. *)
Inductive ReadableStream :=
| StreamEnds (text : string)
| StreamFails (e : Thrown).

Record GitItem := { path : option string }.

Record GitPullRequestChange := {
  item : option GitItem;
  changeType : option Z;
  sourceServerItem : option string
}.

Record GitCommitRef := { commitId : option string }.

Record GitPullRequestIteration := {
  id : option Z;
  sourceRefCommit : option GitCommitRef;
  targetRefCommit : option GitCommitRef
}.

Record GitPullRequestIterationChanges := {
  changeEntries : option (list GitPullRequestChange)
}.

(** The three calls the tool makes on the Git API.  [getItemContent] is
    given the repository, the path, the project and the commit of the
    version descriptor; its other arguments are [undefined] in the source. *)
Record GitApi := {
  getPullRequestIterations :
    string -> Z -> option string -> option (list GitPullRequestIteration);
  getPullRequestIterationChanges :
    string -> Z -> Z -> option string -> option GitPullRequestIterationChanges;
  getItemContent :
    string -> string -> option string -> string -> Outcome (option ReadableStream)
}.

(** One part of the array returned by [diffLines] of the [diff] package. *)
Record Change := {
  count : Z;
  added : bool;
  removed : bool;
  value : string
}.

(** ** Diff regions (repos.ts, lines 247-286) *)

Record DiffRegion := {
  type : string;
  beforeStart : Z;
  beforeEnd : Z;
  afterStart : Z;
  afterEnd : Z
}.

(** The variables of the loop over [changesArr]. *)
Record Cursor := {
  beforeIdx : Z;
  afterIdx : Z;
  diffRegions : list DiffRegion
}.

(** One turn of the loop: an added or a removed part pushes a region, an
    unchanged part only advances the two indices. *)
Definition regionStep (st : Cursor) (part : Change) : Cursor :=
  if added part then
    {| beforeIdx := beforeIdx st;
       afterIdx := afterIdx st + count part;
       diffRegions :=
         (diffRegions st ++
            [ {| type := "added";
                 beforeStart := beforeIdx st;
                 beforeEnd := beforeIdx st;
                 afterStart := afterIdx st;
                 afterEnd := afterIdx st + count part |} ])%list |}
  else if removed part then
    {| beforeIdx := beforeIdx st + count part;
       afterIdx := afterIdx st;
       diffRegions :=
         (diffRegions st ++
            [ {| type := "removed";
                 beforeStart := beforeIdx st;
                 beforeEnd := beforeIdx st + count part;
                 afterStart := afterIdx st;
                 afterEnd := afterIdx st |} ])%list |}
  else
    {| beforeIdx := beforeIdx st + count part;
       afterIdx := afterIdx st + count part;
       diffRegions := diffRegions st |}.

Definition regionLoop (changesArr : list Change) : Cursor :=
  fold_left regionStep changesArr
    {| beforeIdx := 0; afterIdx := 0; diffRegions := [] |}.

(** The region list the tool builds from the parts of the diff. *)
Definition regionsOfParts (changesArr : list Change) : list DiffRegion :=
  diffRegions (regionLoop changesArr).

(** ** Rendering of one file's diff (repos.ts, lines 288-331) *)

Definition len {A} (arr : list A) : Z := Z.of_nat (List.length arr).

(** The cap of the no-difference fallback. *)
Definition maxLines : Z := 50.

Definition fence : string := "```diff" ++ Js.nl.
Definition fenceEnd : string := "```" ++ Js.nl.

(** The arrow of the region heading, as its UTF-8 bytes. *)
Definition arrow : string :=
  String "226"%char (String "134"%char (String "146"%char EmptyString)).

(** The lines the fallback shows for one side, and their numbered form. *)
Definition fallbackLines (lines : list string) : list string :=
  Js.slice lines 0 maxLines.

Definition fallbackFormatted (lines : list string) : string :=
  Js.join
    (Js.mapIndex
       (fun line index => Js.padStart 4 (Js.toString (index + 1)) ++ ": " ++ line)
       (fallbackLines lines)).

(** The branch taken when [diffRegions.length === 0]. *)
Definition renderFallback (beforeLines afterLines : list string) : string :=
  (if 0 <? len beforeLines then
     "### Before (first " ++ Js.toString (Z.min maxLines (len beforeLines))
       ++ " lines)" ++ Js.nl ++ Js.nl
       ++ fence ++ fallbackFormatted beforeLines ++ Js.nl ++ fenceEnd
   else "")
  ++
  (if 0 <? len afterLines then
     Js.nl ++ "### After (first " ++ Js.toString (Z.min maxLines (len afterLines))
       ++ " lines)" ++ Js.nl ++ Js.nl
       ++ fence ++ fallbackFormatted afterLines ++ Js.nl ++ fenceEnd
   else "").

(** A string is truthy when it is not empty. *)
Definition nonEmpty (s : string) : bool := negb (String.eqb s "").

Definition lineIf (s : string) : string :=
  if nonEmpty s then s ++ Js.nl else "".

(** One side of a region block: printed when any of the three parts of the
    context has text. *)
Definition renderSide (title : string) (ctx : Context) : string :=
  if nonEmpty (before ctx) || nonEmpty (changed ctx) || nonEmpty (after ctx) then
    title ++ fence
      ++ lineIf (before ctx) ++ lineIf (changed ctx) ++ lineIf (after ctx)
      ++ fenceEnd
  else "".

Definition renderRegion (beforeLines afterLines : list string) (region : DiffRegion)
  : string :=
  "### Diff Region (" ++ type region ++ ") - Lines "
    ++ Js.toString (beforeStart region + 1) ++ "-" ++ Js.toString (beforeEnd region)
    ++ " " ++ arrow ++ " "
    ++ Js.toString (afterStart region + 1) ++ "-" ++ Js.toString (afterEnd region)
    ++ Js.nl ++ Js.nl
    ++ renderSide ("**Before:**" ++ Js.nl ++ Js.nl)
         (extractContext beforeLines (beforeStart region) (beforeEnd region) 5 1)
    ++ renderSide (Js.nl ++ "**After:**" ++ Js.nl ++ Js.nl)
         (extractContext afterLines (afterStart region) (afterEnd region) 5 1).

(** ** Content fetches: a log of the requests and a possible rejection *)

Record ItemRequest := {
  repository : string;
  itemPath : string;
  itemProject : option string;
  version : string
}.

(** A computation that may issue [getItemContent] requests, recorded in
    order, and that either resolves or throws. *)
Definition Fetching (A : Type) : Type :=
  list ItemRequest -> Outcome A * list ItemRequest.

Definition ret {A} (a : A) : Fetching A := fun log => (Resolved a, log).

Definition bind {A B} (m : Fetching A) (k : A -> Fetching B) : Fetching B :=
  fun log =>
    match m log with
    | (Resolved a, log') => k a log'
    | (Rejected e, log') => (Rejected e, log')
    end.

Notation "x <- m ;; k" := (bind m (fun x => k))
  (at level 61, m at next level, right associativity).

(** [streamToString]: resolves with the text of the stream, rejects when the
    stream emits ['error']. *)
Definition streamToString (stream : ReadableStream) : Fetching string :=
  fun log =>
    match stream with
    | StreamEnds text => (Resolved text, log)
    | StreamFails e => (Rejected e, log)
    end.

(** [error instanceof Error ? error.message : 'Unknown error']. *)
Definition errorMessage (e : Thrown) : string :=
  match e with
  | ErrorObject message => message
  | OtherValue => "Unknown error"
  end.

(** ** The handler of [repo_read_pull_request_file_diffs] (lines 122-338) *)

(** The value the handler returns: the text of its single content item and
    whether it carries [isError: true]. *)
Record ToolResult := {
  text : string;
  isError : bool
}.

Section Tool.

Variable gitApi : GitApi.
Variable diffLines : string -> string -> list Change.
Variables (repositoryId : string) (pullRequestId : Z) (project : option string).
Variables (top skip : Z) (includeContent : bool).

(** [change.item?.path]. *)
Definition changePath (change : GitPullRequestChange) : option string :=
  match item change with
  | Some i => path i
  | None => None
  end.

(** [change.changeType === n]. *)
Definition changeTypeIs (change : GitPullRequestChange) (n : Z) : bool :=
  match changeType change with
  | Some t => t =? n
  | None => false
  end.

(** The guard [includeContent && change.item?.path]: the path whose
    contents are read, when there is one. *)
Definition contentPath (change : GitPullRequestChange) : option string :=
  if includeContent then
    match changePath change with
    | Some p => if nonEmpty p then Some p else None
    | None => None
    end
  else None.

(** The lines written for every change before its contents. *)
Definition changeHeader (change : GitPullRequestChange) : string :=
  "## "
    ++ (if Js.truthy (changePath change)
        then match changePath change with Some p => p | None => "" end
        else "(unknown path)")
    ++ Js.nl
    ++ "- **Change Type:** "
    ++ match changeType change with
       | Some t => Js.toString t
       | None => "undefined"
       end
    ++ Js.nl
    ++ match sourceServerItem change with
       | Some source =>
           if nonEmpty source
              && negb match changePath change with
                      | Some p => String.eqb source p
                      | None => false
                      end
           then "- **Renamed from:** " ++ source ++ Js.nl
           else ""
       | None => ""
       end
    ++ Js.nl.

Definition separator : string := Js.nl ++ "---" ++ Js.nl.

Definition errorNote (error : Thrown) : string :=
  "*Could not retrieve file content: " ++ errorMessage error ++ "*"
    ++ Js.nl ++ Js.nl.

(** Lines 245-331: split, diff, and either the fallback or one block per
    region. *)
Definition renderDiff (beforeContent afterContent : string) : string :=
  let beforeLines := Js.split beforeContent in
  let afterLines := Js.split afterContent in
  let diffRegions := regionsOfParts (diffLines beforeContent afterContent) in
  if len diffRegions =? 0 then renderFallback beforeLines afterLines
  else
    fold_left
      (fun markdown region => markdown ++ renderRegion beforeLines afterLines region)
      diffRegions "".

Section Report.

Variables (sourceCommitId targetCommitId : string).

(** One call of [gitApi.getItemContent], recorded in the log. *)
Definition requestItem (itemPath version : string)
  : Fetching (option ReadableStream) :=
  fun log =>
    (getItemContent gitApi repositoryId itemPath project version,
     (log ++ [ {| repository := repositoryId; itemPath := itemPath;
                  itemProject := project; version := version |} ])%list).

(** The body of the [try] block (lines 196-238): the two contents, each
    left empty when its fetch is guarded out or yields no item. *)
Definition fetchContents (change : GitPullRequestChange) (itemPath : string)
  : Fetching (string * string) :=
  beforeContent <-
    (if negb (changeTypeIs change 1) then
       beforeItem <- requestItem itemPath targetCommitId ;;
       match beforeItem with
       | Some stream => streamToString stream
       | None => ret ""
       end
     else ret "") ;;
  afterContent <-
    (if negb (changeTypeIs change 2) then
       afterItem <- requestItem itemPath sourceCommitId ;;
       match afterItem with
       | Some stream => streamToString stream
       | None => ret ""
       end
     else ret "") ;;
  ret (beforeContent, afterContent).

(** What one turn of the report loop appends to [markdown], and the
    requests it adds to the log.  The [catch] writes the note and
    [continue]s, so the separator is not written after it. *)
Definition changeSection (change : GitPullRequestChange) (log : list ItemRequest)
  : string * list ItemRequest :=
  match contentPath change with
  | Some itemPath =>
      match fetchContents change itemPath log with
      | (Resolved (beforeContent, afterContent), log') =>
          (changeHeader change ++ renderDiff beforeContent afterContent
             ++ separator, log')
      | (Rejected error, log') =>
          (changeHeader change ++ errorNote error, log')
      end
  | None => (changeHeader change ++ separator, log)
  end.

Definition reportStep (st : string * list ItemRequest) (change : GitPullRequestChange)
  : string * list ItemRequest :=
  let (section_, log') := changeSection change (snd st) in
  (fst st ++ section_, log').

Definition title : string := "# PR File Diffs" ++ Js.nl ++ Js.nl.

(** The report loop over the paginated changes. *)
Definition report (paginatedChanges : list GitPullRequestChange)
  : string * list ItemRequest :=
  fold_left reportStep paginatedChanges (title, []).

End Report.

(** The commit id of a ref when it is truthy. *)
Definition commitOf (ref : option GitCommitRef) : option string :=
  match ref with
  | Some r => if Js.truthy (commitId r) then commitId r else None
  | None => None
  end.

Definition failure (message : string) : ToolResult * list ItemRequest :=
  ({| text := message; isError := true |}, []).

(** [changes.slice(skip, skip + top)]. *)
Definition paginate (changes : list GitPullRequestChange) : list GitPullRequestChange :=
  Js.slice changes skip (skip + top).

(** The handler, for the values the calls of [getPullRequestIterations] and
    [getPullRequestIterationChanges] resolve to: its result and the content
    requests it issued.  Both calls are awaited outside the [try] block;
    where one of them rejects the handler rejects too, a run the record of
    the API does not describe. *)
Definition readPullRequestFileDiffs : ToolResult * list ItemRequest :=
  match getPullRequestIterations gitApi repositoryId pullRequestId project with
  | None | Some [] => failure "No iterations found for this pull request."
  | Some (first :: rest) =>
      let latestIteration := last rest first in
      let iterationId := id latestIteration in
      match commitOf (sourceRefCommit latestIteration),
            commitOf (targetRefCommit latestIteration) with
      | Some sourceCommitId, Some targetCommitId =>
          let changesResult :=
            getPullRequestIterationChanges gitApi repositoryId pullRequestId
              match iterationId with Some n => n | None => 0 end project in
          let changes :=
            match changesResult with
            | Some result =>
                match changeEntries result with
                | Some entries => entries
                | None => []
                end
            | None => []
            end in
          let paginatedChanges := paginate changes in
          let (markdown, log) := report sourceCommitId targetCommitId paginatedChanges in
          ({| text := markdown; isError := false |}, log)
      | _, _ =>
          failure "Could not determine source or target commit IDs for this pull request."
      end
  end.

End Tool.

(** * The statements of the specification

    The notions the specification words its properties with, written
    independently of the code above. *)

(** ** The context window of section 4.3 *)

(** The elements of [lines] whose index lies in [[lo, hi)]. *)
Definition linesIn {A} (lines : list A) (lo hi : Z) : list A :=
  map snd
    (filter (fun entry => (lo <=? fst entry) && (fst entry <? hi))
       (combine (Js.zrange 0 (List.length lines)) lines)).

(** The window the specification describes, with the line numbers the
    first-line-number offset gives. *)
Definition windowOf (lines : list string) (start end_ contextSize startLineNumber : Z)
  : Context :=
  let lo := Z.max 0 (start - contextSize) in
  let hi := Z.min (len lines) (end_ + contextSize) in
  {| before := formatLinesWithNumbers (linesIn lines lo start) (startLineNumber + lo);
     changed := formatLinesWithNumbers (linesIn lines start end_)
                  (startLineNumber + start);
     after := formatLinesWithNumbers (linesIn lines end_ hi)
                (startLineNumber + end_) |}.

(** ** The line splitter of section 4.1 *)

(** The number of line feeds of a text. *)
Fixpoint lineFeeds (s : string) : Z :=
  match s with
  | EmptyString => 0
  | String c rest => (if Ascii.eqb c Js.LF then 1 else 0) + lineFeeds rest
  end.

(** ** The region classifier of section 4.2 *)

(** The region list as a function of the two indices: what the loop pushes
    from the point where [beforeIdx = b] and [afterIdx = a]. *)
Fixpoint regionsFrom (b a : Z) (parts : list Change) : list DiffRegion :=
  match parts with
  | [] => []
  | part :: rest =>
      if added part then
        {| type := "added"; beforeStart := b; beforeEnd := b;
           afterStart := a; afterEnd := a + count part |}
          :: regionsFrom b (a + count part) rest
      else if removed part then
        {| type := "removed"; beforeStart := b; beforeEnd := b + count part;
           afterStart := a; afterEnd := a |}
          :: regionsFrom (b + count part) a rest
      else regionsFrom (b + count part) (a + count part) rest
  end.

(** The kind of a part, in the order the loop tests its flags. *)
Inductive Kind := Added | Removed | Unchanged.

Definition kindOf (part : Change) : Kind :=
  if added part then Added else if removed part then Removed else Unchanged.

(** The numbers of lines the parts count on each side. *)
Fixpoint beforeTotal (parts : list Change) : Z :=
  match parts with
  | [] => 0
  | part :: rest =>
      match kindOf part with
      | Added => 0
      | Removed | Unchanged => count part
      end + beforeTotal rest
  end.

Fixpoint afterTotal (parts : list Change) : Z :=
  match parts with
  | [] => 0
  | part :: rest =>
      match kindOf part with
      | Removed => 0
      | Added | Unchanged => count part
      end + afterTotal rest
  end.

(** The line tokens the [diff] package counts in a text: a text is cut
    after each line feed, and a last line without line feed counts too. *)
Fixpoint lineCount (s : string) : Z :=
  match s with
  | EmptyString => 0
  | String c rest =>
      if Ascii.eqb c Js.LF then 1 + lineCount rest
      else match rest with
           | EmptyString => 1
           | _ => lineCount rest
           end
  end.

(** What makes [parts] a line diff of [before] and [after]: the parts that
    are not added spell [before], those that are not removed spell [after],
    every part counts the lines of its value, has at least one, and is not
    both added and removed. *)
Definition isLineDiff (before after : string) (parts : list Change) : bool :=
  String.eqb (String.concat "" (map value (filter (fun p => negb (added p)) parts)))
    before
  && String.eqb (String.concat "" (map value (filter (fun p => negb (removed p)) parts)))
       after
  && forallb (fun p => (count p =? lineCount (value p)) && (0 <? count p)
                       && negb (added p && removed p)) parts.

(** No two consecutive parts of the same kind, as the [diff] package
    returns them. *)
Fixpoint coalesced (parts : list Change) : Prop :=
  match parts with
  | p :: (q :: _) as rest => kindOf p <> kindOf q /\ coalesced rest
  | _ => True
  end.

Definition beforeRange (r : DiffRegion) : Z * Z := (beforeStart r, beforeEnd r).
Definition afterRange (r : DiffRegion) : Z * Z := (afterStart r, afterEnd r).

(** [ranges], laid end to end, reconstruct [[lo, hi)]: each starts where the
    one before it ends. *)
Fixpoint tiles (ranges : list (Z * Z)) (lo hi : Z) : Prop :=
  match ranges with
  | [] => lo = hi
  | (s, e) :: rest => s = lo /\ s <= e /\ tiles rest e hi
  end.

(** The partition invariant of the specification. *)
Definition partitions (regions : list DiffRegion) (beforeLength afterLength : Z) : Prop :=
  tiles (map beforeRange regions) 0 beforeLength
  /\ tiles (map afterRange regions) 0 afterLength.

(** The regions lie in order on both axes from [(b, a)] to [(B, A)]; what
    separates one from the next, and the last from the end, is a run of the
    same length on both axes. *)
Fixpoint tilesWithGaps (regions : list DiffRegion) (b a B A : Z) : Prop :=
  match regions with
  | [] => 0 <= B - b /\ B - b = A - a
  | r :: rest =>
      0 <= beforeStart r - b
      /\ beforeStart r - b = afterStart r - a
      /\ beforeStart r <= beforeEnd r
      /\ afterStart r <= afterEnd r
      /\ (type r = "added" \/ type r = "removed")
      /\ tilesWithGaps rest (beforeEnd r) (afterEnd r) B A
  end.

(** No two consecutive regions of the same kind. *)
Fixpoint noAdjacentSameKind (regions : list DiffRegion) : Prop :=
  match regions with
  | r1 :: (r2 :: _) as rest => type r1 <> type r2 /\ noAdjacentSameKind rest
  | _ => True
  end.

(** Two consecutive regions of the same kind have lines between them on
    both axes. *)
Fixpoint separated (regions : list DiffRegion) : Prop :=
  match regions with
  | r1 :: (r2 :: _) as rest =>
      (type r1 = type r2 ->
       beforeEnd r1 < beforeStart r2 /\ afterEnd r1 < afterStart r2)
      /\ separated rest
  | _ => True
  end.

(** The single region the specification expects for identical contents. *)
Definition wholeUnchanged (lines : list string) : DiffRegion :=
  {| type := "unchanged"; beforeStart := 0; beforeEnd := len lines;
     afterStart := 0; afterEnd := len lines |}.

(** ** Parts used in the examples *)

Module Parts.

Definition same (n : Z) (v : string) : Change :=
  {| count := n; added := false; removed := false; value := v |}.

Definition add (n : Z) (v : string) : Change :=
  {| count := n; added := true; removed := false; value := v |}.

Definition remove (n : Z) (v : string) : Change :=
  {| count := n; added := false; removed := true; value := v |}.

(** A line with its line feed. *)
Definition line (s : string) : string := s ++ Js.nl.

End Parts.

(** ** The report of sections 4.4 and 4.5 *)

(** The change types a change entry carries: the values of the enumeration
    [VersionControlChangeType] of the Git API library, whose declaration is
    not among the sources of the tool. *)
Module ChangeType.

Definition Add : Z := 1.
Definition Edit : Z := 2.
Definition Rename : Z := 8.
Definition Delete : Z := 16.

End ChangeType.

Definition failed {A} (o : Outcome A) : bool :=
  match o with
  | Rejected _ => true
  | Resolved _ => false
  end.

Section ReportStatements.

Variable gitApi : GitApi.
Variable diffLines : string -> string -> list Change.
Variables (repositoryId : string) (pullRequestId : Z) (project : option string).
Variable includeContent : bool.
Variables (sourceCommitId targetCommitId : string).

(** The request for the contents of [itemPath] at commit [version]. *)
Definition requestFor (itemPath version : string) : ItemRequest :=
  {| repository := repositoryId; itemPath := itemPath;
     itemProject := project; version := version |}.

(** What one content fetch gives once its stream is read: the text, the
    empty text when the API returns no item, or what was thrown. *)
Definition fetched (itemPath version : string) : Outcome string :=
  match getItemContent gitApi repositoryId itemPath project version with
  | Rejected e => Rejected e
  | Resolved None => Resolved ""
  | Resolved (Some (StreamEnds text)) => Resolved text
  | Resolved (Some (StreamFails e)) => Rejected e
  end.

(** The before-content of a change: not fetched for change type 1. *)
Definition beforeOf (change : GitPullRequestChange) (itemPath : string) : Outcome string :=
  if changeTypeIs change 1 then Resolved "" else fetched itemPath targetCommitId.

(** The after-content of a change: not fetched for change type 2. *)
Definition afterOf (change : GitPullRequestChange) (itemPath : string) : Outcome string :=
  if changeTypeIs change 2 then Resolved "" else fetched itemPath sourceCommitId.

Definition contentsOf (change : GitPullRequestChange) (itemPath : string)
  : Outcome (string * string) :=
  match beforeOf change itemPath with
  | Rejected e => Rejected e
  | Resolved beforeContent =>
      match afterOf change itemPath with
      | Rejected e => Rejected e
      | Resolved afterContent => Resolved (beforeContent, afterContent)
      end
  end.

(** The requests for the two contents of a change, in the order they are
    issued: none for the before-content of type 1; none for the after-content
    of type 2, nor after a before-fetch that failed. *)
Definition beforeFetches (change : GitPullRequestChange) (itemPath : string)
  : list ItemRequest :=
  if changeTypeIs change 1 then [] else [requestFor itemPath targetCommitId].

Definition afterFetches (change : GitPullRequestChange) (itemPath : string)
  : list ItemRequest :=
  if changeTypeIs change 2 || failed (beforeOf change itemPath) then []
  else [requestFor itemPath sourceCommitId].

Definition fetchesOf (change : GitPullRequestChange) : list ItemRequest :=
  match contentPath includeContent change with
  | Some itemPath => (beforeFetches change itemPath ++ afterFetches change itemPath)%list
  | None => []
  end.

(** The fetches the specification describes: the before-content unless the
    change is an add, the after-content unless it is a delete. *)
Definition fetchesByChangeType (change : GitPullRequestChange) (itemPath : string)
  : list ItemRequest :=
  ((if changeTypeIs change ChangeType.Add then []
    else [requestFor itemPath targetCommitId])
   ++ (if changeTypeIs change ChangeType.Delete then []
       else [requestFor itemPath sourceCommitId]))%list.

(** The text of the section of one change. *)
Definition sectionText (change : GitPullRequestChange) : string :=
  match contentPath includeContent change with
  | Some itemPath =>
      match contentsOf change itemPath with
      | Resolved (beforeContent, afterContent) =>
          changeHeader change ++ renderDiff diffLines beforeContent afterContent
            ++ separator
      | Rejected error => changeHeader change ++ errorNote error
      end
  | None => changeHeader change ++ separator
  end.

(** What the handler reads before it paginates: the two commits of the
    latest iteration and the change list, or the message it fails with. *)
Definition changeList : string + string * string * list GitPullRequestChange :=
  match getPullRequestIterations gitApi repositoryId pullRequestId project with
  | None | Some [] => inl "No iterations found for this pull request."
  | Some (first :: rest) =>
      let latestIteration := last rest first in
      match commitOf (sourceRefCommit latestIteration),
            commitOf (targetRefCommit latestIteration) with
      | Some source, Some target =>
          inr (source, target,
               match getPullRequestIterationChanges gitApi repositoryId pullRequestId
                       match id latestIteration with Some n => n | None => 0 end
                       project with
               | Some {| changeEntries := Some entries |} => entries
               | _ => []
               end)
      | _, _ =>
          inl "Could not determine source or target commit IDs for this pull request."
      end
  end.

End ReportStatements.

(** ** A pull request used in the examples *)

Module Example.

Definition file (p : string) (t : Z) : GitPullRequestChange :=
  {| item := Some {| path := Some p |}; changeType := Some t;
     sourceServerItem := None |}.

(** An iteration from commit [t] (target) to commit [s] (source). *)
Definition iteration : GitPullRequestIteration :=
  {| id := Some 1;
     sourceRefCommit := Some {| commitId := Some "s" |};
     targetRefCommit := Some {| commitId := Some "t" |} |}.

(** A Git API over fixed iterations, a fixed change list and a table of
    contents by path and commit. *)
Definition api (iterations : option (list GitPullRequestIteration))
  (changes : list GitPullRequestChange)
  (contents : string -> string -> Outcome (option ReadableStream)) : GitApi :=
  {| getPullRequestIterations := fun _ _ _ => iterations;
     getPullRequestIterationChanges :=
       fun _ _ _ _ => Some {| changeEntries := Some changes |};
     getItemContent := fun _ p _ v => contents p v |}.

(** A diff routine that keeps a text equal to the other as one unchanged
    part and otherwise replaces it whole. *)
Definition wholeFileDiff (before after : string) : list Change :=
  if String.eqb before after then
    if String.eqb before "" then [] else [Parts.same (lineCount before) before]
  else
    ((if String.eqb before "" then [] else [Parts.remove (lineCount before) before])
     ++ (if String.eqb after "" then [] else [Parts.add (lineCount after) after]))%list.

(** Contents that cannot be read at commit [t] for the path [broken]. *)
Definition contents (p v : string) : Outcome (option ReadableStream) :=
  if String.eqb p "broken" && String.eqb v "t" then Rejected (ErrorObject "boom")
  else Resolved (Some (StreamEnds (p ++ "@" ++ v))).

(** A change list of [n] files with the paths [f1], [f2], ... *)
Definition files (n : nat) : list GitPullRequestChange :=
  map (fun i => file ("f" ++ Js.toString i) 8) (Js.zrange 1 n).

(** A text of sixty lines, the last of which reads [END]. *)
Definition sixtyLines : string := Js.join (repeat "x" 59 ++ ["END"]).

End Example.

(** * Further statements about the diff tool *)

(** A part that pushes a region: it is added or removed. *)
Definition isChanged (part : Change) : bool := added part || removed part.

(** The region pushed for a part: of the part's kind, as long as the part
    counts on its own axis and empty on the other. *)
Definition regionOf (part : Change) (r : DiffRegion) : Prop :=
  match kindOf part with
  | Added =>
      type r = "added" /\ beforeEnd r = beforeStart r
      /\ afterEnd r = afterStart r + count part
  | Removed =>
      type r = "removed" /\ afterEnd r = afterStart r
      /\ beforeEnd r = beforeStart r + count part
  | Unchanged => False
  end.

(** The bounds [extractContext] clips its window to. *)
Definition windowStart (start context : Z) : Z := Z.max 0 (start - context).

Definition windowEnd (lines : list string) (end_ context : Z) : Z :=
  Z.min (len lines) (end_ + context).

(** The numbered form of the line of index [i], as the listings print it:
    the number is [i + 1]. *)
Definition numberedLine (lines : list string) (i : Z) : string :=
  Js.padStart 4 (Js.toString (i + 1)) ++ ": " ++ nth (Z.to_nat i) lines "".

(** The section of a change whose contents are not read. *)
Definition bareSection (change : GitPullRequestChange) : string :=
  changeHeader change ++ separator.

(** The lines of [lineSlice] with their numbers, counted from [from]. *)
Definition numberedFrom (from : Z) (lineSlice : list string) : list string :=
  Js.mapIndexFrom
    (fun line i => Js.padStart 4 (Js.toString i) ++ ": " ++ line) from lineSlice.

(** Every string of [pieces] followed by a line feed. *)
Definition block (pieces : list string) : string :=
  String.concat "" (map (fun piece => piece ++ Js.nl) pieces).

(** The numbered listing of the lines of index [lo] to [hi - 1], one per
    output line. *)
Definition listing (lines : list string) (lo hi : Z) : string :=
  block (map (numberedLine lines) (Js.zrange lo (Z.to_nat (hi - lo)))).

(** * The other tools of [src/tools/repos.ts] *)

From Stdlib Require Import Sorted Permutation.

(** ** More JavaScript primitives *)

Module JsExtra.

(** [s.split(sep)] for a separator of one character. *)
Fixpoint splitOn (sep : ascii) (s : string) : list string :=
  match s with
  | EmptyString => [""]
  | String c rest =>
      if Ascii.eqb c sep then "" :: splitOn sep rest
      else match splitOn sep rest with
           | [] => [String c ""]
           | piece :: pieces => String c piece :: pieces
           end
  end.

(** [s.startsWith(prefix)]. *)
Definition startsWith (s prefix_ : string) : bool := String.prefix prefix_ s.

(** [s] without its first [n] characters. *)
Fixpoint drop (n : nat) (s : string) : string :=
  match n, s with
  | O, _ => s
  | S k, EmptyString => EmptyString
  | S k, String _ rest => drop k rest
  end.

(** [s.replace(pattern, replacement)] for a string pattern and a
    replacement that holds no [$]: the first occurrence of [pattern], if
    there is one, is replaced. *)
Fixpoint replace (pattern replacement s : string) : string :=
  if String.prefix pattern s then replacement ++ drop (String.length pattern) s
  else match s with
       | EmptyString => EmptyString
       | String c rest => String c (replace pattern replacement rest)
       end.

(** [arr.sort(compare)].  The sort of the language is stable; for a
    consistent comparator its result is the one of this insertion sort:
    [x] goes before the first [y] with [compare(x, y) <= 0]. *)
Fixpoint insert {A} (compare : A -> A -> Z) (x : A) (sorted : list A) : list A :=
  match sorted with
  | [] => [x]
  | y :: rest =>
      if 0 <? compare x y then y :: insert compare x rest else x :: sorted
  end.

Fixpoint sort {A} (compare : A -> A -> Z) (arr : list A) : list A :=
  match arr with
  | [] => []
  | x :: rest => insert compare x (sort compare rest)
  end.

End JsExtra.

(** What a [throw] carries when its text matters whatever it is: the message
    of an [Error], or the text [String(value)] of another value. *)
Inductive Raised :=
| RaisedError (message : string)
| RaisedValue (asString : string).

Inductive Attempt (A : Type) :=
| Done (a : A)
| Raise (e : Raised).
Arguments Done {A} a.
Arguments Raise {A} e.

(** ** [branchesFilterOutIrrelevantProperties] (lines 49-56) *)

Module Branches.

Record GitRef := {
  name : option string;
  objectId : option string
}.

Definition headsPrefix : string := "refs/heads/".

Section Filter.

(** [a.localeCompare(b)], which depends on the locale of the host. *)
Variable localeCompare : string -> string -> Z.

Definition branchesFilterOutIrrelevantProperties
  (branches : option (list GitRef)) (top : Z) : option (list string) :=
  match branches with
  | None => None
  | Some branches =>
      Some
        (Js.slice
           (JsExtra.sort (fun a b => localeCompare b a)
              (map (fun branch => JsExtra.replace headsPrefix "" branch)
                 (filter (fun branch => JsExtra.startsWith branch headsPrefix)
                    (flat_map
                       (fun branch =>
                          match name branch with
                          | Some n => if nonEmpty n then [n] else []
                          | None => []
                          end)
                       branches))))
           0 top)
  end.

End Filter.

(** The short names of the heads among [branches], in their order. *)
Definition headNames (branches : list GitRef) : list string :=
  flat_map
    (fun branch =>
       match name branch with
       | Some n =>
           if String.prefix headsPrefix n
           then [JsExtra.drop (String.length headsPrefix) n]
           else []
       | None => []
       end)
    branches.

End Branches.

(** ** [trimComments] and the comment pages (lines 63-84, 683-746) *)

Module Threads.

Record IdentityRef := {
  displayName : option string;
  uniqueName : option string
}.

(** A comment as the API returns it; the dates are carried as they are. *)
Record Comment := {
  id : option Z;
  author : option IdentityRef;
  content : option string;
  publishedDate : option string;
  lastUpdatedDate : option string;
  lastContentUpdatedDate : option string;
  isDeleted : option bool;
  parentCommentId : option Z
}.

Record TrimmedAuthor := {
  authorDisplayName : option string;
  authorUniqueName : option string
}.

Record TrimmedComment := {
  trimmedId : option Z;
  trimmedAuthor : TrimmedAuthor;
  trimmedContent : option string;
  trimmedPublishedDate : option string;
  trimmedLastUpdatedDate : option string;
  trimmedLastContentUpdatedDate : option string
}.

(** [!c.isDeleted]. *)
Definition notDeleted (c : Comment) : bool :=
  match isDeleted c with
  | Some true => false
  | _ => true
  end.

Definition trimOne (c : Comment) : TrimmedComment :=
  {| trimmedId := id c;
     trimmedAuthor :=
       {| authorDisplayName :=
            match author c with Some a => displayName a | None => None end;
          authorUniqueName :=
            match author c with Some a => uniqueName a | None => None end |};
     trimmedContent := content c;
     trimmedPublishedDate := publishedDate c;
     trimmedLastUpdatedDate := lastUpdatedDate c;
     trimmedLastContentUpdatedDate := lastContentUpdatedDate c |}.

Definition trimComments (comments : option (list Comment))
  : option (list TrimmedComment) :=
  match comments with
  | None => None
  | Some comments => Some (map trimOne (filter notDeleted comments))
  end.

(** [a.id ?? 0]. *)
Definition idOrZero (o : option Z) : Z :=
  match o with
  | Some n => n
  | None => 0
  end.

(** [comments?.sort((a, b) => (a.id ?? 0) - (b.id ?? 0)).slice(skip, skip + top)]
    (line 731). *)
Definition paginatedComments (comments : option (list Comment)) (top skip : Z)
  : option (list Comment) :=
  match comments with
  | None => None
  | Some comments =>
      Some (Js.slice
              (JsExtra.sort (fun a b => idOrZero (id a) - idOrZero (id b)) comments)
              skip (skip + top))
  end.

(** What [repo_list_pull_request_thread_comments] hands to
    [JSON.stringify] without [fullResponse] (line 740). *)
Definition trimmedCommentsPage (comments : option (list Comment)) (top skip : Z)
  : option (list TrimmedComment) :=
  trimComments (paginatedComments comments top skip).

End Threads.

(** A comparison of strings by their characters, used in the examples where
    the source compares by locale. *)
Definition byteCompare (a b : string) : Z :=
  match String.compare a b with
  | Lt => -1
  | Eq => 0
  | Gt => 1
  end.

(** ** [repo_create_pull_request_thread] (lines 928-981) *)

Module ThreadCreation.

Record CommentPosition := {
  line : Z;
  offset : option Z
}.

Record CommentThreadContext := {
  filePath : option string;
  rightFileStart : option CommentPosition;
  rightFileEnd : option CommentPosition
}.

Definition raise {A} (message : string) : Attempt A := Raise (RaisedError message).

(** Lines 934-948: the start of the span. *)
Definition startOf (rightFileStartLine rightFileStartOffset : option Z)
  : Attempt (option CommentPosition) :=
  match rightFileStartLine with
  | Some startLine =>
      if startLine <? 1 then
        raise "rightFileStartLine must be greater than or equal to 1."
      else
        match rightFileStartOffset with
        | Some startOffset =>
            if startOffset <? 1 then
              raise "rightFileStartOffset must be greater than or equal to 1."
            else Done (Some {| line := startLine; offset := Some startOffset |})
        | None => Done (Some {| line := startLine; offset := None |})
        end
  | None => Done None
  end.

(** Lines 950-968: the end of the span. *)
Definition endOf (rightFileStartLine rightFileEndLine rightFileEndOffset : option Z)
  : Attempt (option CommentPosition) :=
  match rightFileEndLine with
  | Some endLine =>
      match rightFileStartLine with
      | None =>
          raise "rightFileEndLine must only be specified if rightFileStartLine is also specified."
      | Some _ =>
          if endLine <? 1 then
            raise "rightFileEndLine must be greater than or equal to 1."
          else
            match rightFileEndOffset with
            | Some endOffset =>
                if endOffset <? 1 then
                  raise "rightFileEndOffset must be greater than or equal to 1."
                else Done (Some {| line := endLine; offset := Some endOffset |})
            | None => Done (Some {| line := endLine; offset := None |})
            end
      end
  | None => Done None
  end.

(** The thread context the handler builds, or the error it throws
    (lines 932-968). *)
Definition threadContextOf (filePath : option string)
  (rightFileStartLine rightFileStartOffset rightFileEndLine rightFileEndOffset
     : option Z) : Attempt CommentThreadContext :=
  match startOf rightFileStartLine rightFileStartOffset with
  | Raise e => Raise e
  | Done start =>
      match endOf rightFileStartLine rightFileEndLine rightFileEndOffset with
      | Raise e => Raise e
      | Done end_ =>
          Done {| filePath := filePath; rightFileStart := start;
                  rightFileEnd := end_ |}
      end
  end.

(** The thread passed to [gitApi.createThread] with its other arguments. *)
Record ThreadRequest := {
  commentContent : string;
  threadContext : CommentThreadContext;
  threadStatus : option Z;
  threadRepository : string;
  threadPullRequest : Z;
  threadProject : option string
}.

Section Handler.

Variable Thread : Type.
Variable createThread : ThreadRequest -> Attempt Thread.
(** [JSON.stringify(thread, null, 2)]. *)
Variable stringify : Thread -> string.
(** [CommentThreadStatus[status]]. *)
Variable statusValue : string -> option Z.

(** The handler, once the connection is there: its outcome and the calls of
    [createThread] it made. *)
Definition createPullRequestThread (repositoryId : string) (pullRequestId : Z)
  (content : string) (project filePath : option string) (status : string)
  (rightFileStartLine rightFileStartOffset rightFileEndLine rightFileEndOffset
     : option Z) : Attempt ToolResult * list ThreadRequest :=
  match threadContextOf filePath rightFileStartLine rightFileStartOffset
          rightFileEndLine rightFileEndOffset with
  | Raise e => (Raise e, [])
  | Done context =>
      let request :=
        {| commentContent := content; threadContext := context;
           threadStatus := statusValue status; threadRepository := repositoryId;
           threadPullRequest := pullRequestId; threadProject := project |} in
      match createThread request with
      | Raise e => (Raise e, [request])
      | Done thread =>
          (Done {| text := stringify thread; isError := false |}, [request])
      end
  end.

End Handler.

(** A position whose line, and offset when it has one, are at least 1. *)
Definition validPosition (p : option CommentPosition) : Prop :=
  match p with
  | Some position =>
      1 <= line position
      /\ match offset position with Some o => 1 <= o | None => True end
  | None => True
  end.

Definition atLeastOne (o : option Z) : Prop :=
  match o with
  | Some n => 1 <= n
  | None => True
  end.

End ThreadCreation.

(** ** [repo_update_pull_request_reviewers] (lines 472-496) *)

Module Reviewers.

Inductive Call :=
| CreateReviewers (ids : list string)
| DeleteReviewer (reviewerId : string).

Section Handler.

Variable Reviewers : Type.
Variable createPullRequestReviewers : list string -> string -> Z -> Attempt Reviewers.
Variable deletePullRequestReviewer : string -> Z -> string -> Attempt unit.
Variable stringify : Reviewers -> string.

(** The loop of lines 488-490: one deletion after the other, until one is
    rejected. *)
Fixpoint removeEach (repositoryId : string) (pullRequestId : Z)
  (reviewerIds : list string) (log : list Call) : Attempt unit * list Call :=
  match reviewerIds with
  | [] => (Done tt, log)
  | reviewerId :: rest =>
      match deletePullRequestReviewer repositoryId pullRequestId reviewerId with
      | Done _ =>
          removeEach repositoryId pullRequestId rest
            (log ++ [DeleteReviewer reviewerId])%list
      | Raise e => (Raise e, (log ++ [DeleteReviewer reviewerId])%list)
      end
  end.

Definition updatePullRequestReviewers (repositoryId : string) (pullRequestId : Z)
  (reviewerIds : list string) (action : string) : Attempt ToolResult * list Call :=
  if String.eqb action "add" then
    match createPullRequestReviewers reviewerIds repositoryId pullRequestId with
    | Done updatedPullRequest =>
        (Done {| text := stringify updatedPullRequest; isError := false |},
         [CreateReviewers reviewerIds])
    | Raise e => (Raise e, [CreateReviewers reviewerIds])
    end
  else
    match removeEach repositoryId pullRequestId reviewerIds [] with
    | (Done _, log) =>
        (Done {| text := "Reviewers with IDs " ++ String.concat ", " reviewerIds
                           ++ " removed from pull request "
                           ++ Js.toString pullRequestId ++ ".";
                 isError := false |}, log)
    | (Raise e, log) => (Raise e, log)
    end.

End Handler.

End Reviewers.

(** ** [repo_update_pull_request] (lines 427-460) *)

Module PullRequestUpdate.

(** The update object: a key is present when its field is [Some]. *)
Record UpdateRequest := {
  title : option string;
  description : option string;
  isDraft : option bool;
  targetRefName : option string;
  status : option Z
}.

(** [Object.keys(updateRequest)]. *)
Definition keys (r : UpdateRequest) : list string :=
  ((match title r with Some _ => ["title"] | None => [] end)
   ++ (match description r with Some _ => ["description"] | None => [] end)
   ++ (match isDraft r with Some _ => ["isDraft"] | None => [] end)
   ++ (match targetRefName r with Some _ => ["targetRefName"] | None => [] end)
   ++ (match status r with Some _ => ["status"] | None => [] end))%list.

Section Handler.

(** [PullRequestStatus.Active.valueOf()] and
    [PullRequestStatus.Abandoned.valueOf()]. *)
Variables (activeValue abandonedValue : Z).
Variable PullRequest : Type.
Variable updatePullRequest : UpdateRequest -> string -> Z -> Attempt PullRequest.
Variable stringify : PullRequest -> string.

Definition updateRequestOf (title description : option string) (isDraft : option bool)
  (targetRefName status : option string) : UpdateRequest :=
  {| title := title; description := description; isDraft := isDraft;
     targetRefName := targetRefName;
     status :=
       match status with
       | Some s => Some (if String.eqb s "Active" then activeValue else abandonedValue)
       | None => None
       end |}.

Definition nothingToUpdate : string :=
  "Error: At least one field (title, description, isDraft, targetRefName, or status) must be provided for update.".

(** The handler, once the connection is there: its outcome and the calls of
    [updatePullRequest] it made. *)
Definition updatePullRequestTool (repositoryId : string) (pullRequestId : Z)
  (title description : option string) (isDraft : option bool)
  (targetRefName status : option string)
  : Attempt ToolResult * list UpdateRequest :=
  let updateRequest := updateRequestOf title description isDraft targetRefName status in
  if len (keys updateRequest) =? 0 then
    (Done {| text := nothingToUpdate; isError := true |}, [])
  else
    match updatePullRequest updateRequest repositoryId pullRequestId with
    | Done updatedPullRequest =>
        (Done {| text := stringify updatedPullRequest; isError := false |},
         [updateRequest])
    | Raise e => (Raise e, [updateRequest])
    end.

End Handler.

End PullRequestUpdate.

(** ** The work items of [repo_create_pull_request] (line 356) *)

Module WorkItems.

Section Parse.

(** [id.trim()]. *)
Variable trim : string -> string.

(** The ids of [workItemRefs]. *)
Definition workItemRefs (workItems : option string) : list string :=
  match workItems with
  | Some w =>
      if nonEmpty w then map (fun id_ => trim id_) (JsExtra.splitOn " " w) else []
  | None => []
  end.

End Parse.

(** The number of occurrences of a character in a text. *)
Fixpoint occurrences (c : ascii) (s : string) : Z :=
  match s with
  | EmptyString => 0
  | String d rest => (if Ascii.eqb d c then 1 else 0) + occurrences c rest
  end.

End WorkItems.

(** The lines a run of parts counts. *)
Definition linesOf (parts : list Change) : Z :=
  fold_right Z.add 0 (map count parts).

(** * Properties *)

(** ** Facts about the primitives *)

Lemma split_cons (s : string) :
  exists piece pieces, Js.split s = piece :: pieces.
Proof.
  induction s as [| c rest IH]; simpl.
  - now exists "", [].
  - destruct (Ascii.eqb c Js.LF).
    + now exists "", (Js.split rest).
    + destruct IH as (piece & pieces & ->). now exists (String c piece), pieces.
Qed.

Lemma split_length_pos (s : string) : 0 < len (Js.split s).
Proof.
  destruct (split_cons s) as (piece & pieces & ->).
  unfold len. simpl List.length. lia.
Qed.

Lemma present_at_zrange {A} (arr : list A) (n k : nat) :
  Js.present (map (Js.at_ arr) (Js.zrange (Z.of_nat k) n)) = firstn n (skipn k arr).
Proof.
  revert k. induction n as [| n IH]; intro k; simpl; [reflexivity |].
  replace (Z.of_nat k + 1) with (Z.of_nat (S k)) by lia.
  rewrite IH. unfold Js.at_.
  destruct (Z.ltb_spec (Z.of_nat k) 0) as [Hneg | _]; [lia |].
  rewrite Nat2Z.id.
  destruct (nth_error arr k) as [x |] eqn:Hk.
  - apply nth_error_split in Hk as (l1 & l2 & -> & <-).
    assert (Hskip : forall m (tail : list A),
               skipn (List.length l1 + m) (l1 ++ tail) = skipn m tail).
    { intros m tail. rewrite skipn_app, skipn_all2 by lia.
      simpl. f_equal. lia. }
    pose proof (Hskip 1%nat (x :: l2)) as H1. rewrite Nat.add_1_r in H1.
    pose proof (Hskip 0%nat (x :: l2)) as H0. rewrite Nat.add_0_r in H0.
    rewrite H1, H0. reflexivity.
  - apply nth_error_None in Hk.
    rewrite !skipn_all2 by lia. now destruct n.
Qed.

(** With arguments that are not negative, [slice] is [firstn] after
    [skipn]. *)
Lemma slice_nonneg {A} (arr : list A) (start end_ : Z) :
  0 <= start -> 0 <= end_ ->
  Js.slice arr start end_ =
  firstn (Z.to_nat end_ - Z.to_nat start) (skipn (Z.to_nat start) arr).
Proof.
  intros Hs He. unfold Js.slice, Js.sliceIndices, Js.relativeIndex.
  destruct (Z.ltb_spec start 0) as [? | _]; [lia |].
  destruct (Z.ltb_spec end_ 0) as [? | _]; [lia |].
  set (n := Z.of_nat (List.length arr)).
  assert (Hn : 0 <= n /\ Z.to_nat n = List.length arr) by (subst n; lia).
  replace (Js.zrange (Z.min start n))
    with (Js.zrange (Z.of_nat (Z.to_nat (Z.min start n)))) by (f_equal; lia).
  rewrite present_at_zrange.
  destruct (Z.le_gt_cases start n) as [Hle | Hgt].
  - rewrite (Z.min_l start n) by lia.
    destruct (Z.le_gt_cases end_ n) as [Hle' | Hgt'].
    + rewrite (Z.min_l end_ n) by lia. f_equal. lia.
    + rewrite (Z.min_r end_ n) by lia.
      rewrite (firstn_all2 (n := Z.to_nat end_ - Z.to_nat start)).
      * apply firstn_all2. rewrite length_skipn. lia.
      * rewrite length_skipn. lia.
  - rewrite (Z.min_r start n) by lia.
    rewrite !skipn_all2 by lia. now rewrite !firstn_nil.
Qed.

(** Every index [slice] reads lies inside the array. *)
Lemma zrange_bounds (k : Z) (n : nat) :
  Forall (fun i => k <= i < k + Z.of_nat n) (Js.zrange k n).
Proof.
  revert k. induction n as [| n IH]; intro k; simpl; constructor.
  - lia.
  - eapply Forall_impl; [| apply IH]. simpl. intros i Hi. lia.
Qed.

Lemma sliceIndices_in_range (n start end_ : Z) :
  0 <= n ->
  Forall (fun i => 0 <= i < n) (Js.sliceIndices n start end_).
Proof.
  intro Hn. unfold Js.sliceIndices.
  eapply Forall_impl; [| apply zrange_bounds]. simpl.
  unfold Js.relativeIndex. intros i Hi.
  destruct (Z.ltb_spec start 0), (Z.ltb_spec end_ 0); lia.
Qed.

Lemma split_length (s : string) : len (Js.split s) = lineFeeds s + 1.
Proof.
  induction s as [| c rest IH]; simpl; [reflexivity |].
  destruct (Ascii.eqb c Js.LF).
  - unfold len in *. simpl List.length. lia.
  - destruct (split_cons rest) as (piece & pieces & Hs).
    rewrite Hs in *. unfold len in *. simpl List.length in *. lia.
Qed.

Lemma linesIn_from {A} (lines : list A) (lo hi k : Z) :
  map snd
    (filter (fun entry => (lo <=? fst entry) && (fst entry <? hi))
       (combine (Js.zrange k (List.length lines)) lines))
  = firstn (Z.to_nat (hi - Z.max lo k)) (skipn (Z.to_nat (lo - k)) lines).
Proof.
  revert k. induction lines as [| x rest IH]; intro k; simpl.
  - now rewrite skipn_nil, firstn_nil.
  - destruct (Z.leb_spec lo k) as [Hlo | Hlo];
      destruct (Z.ltb_spec k hi) as [Hhi | Hhi]; simpl; rewrite IH.
    + replace (Z.to_nat (lo - (k + 1))) with 0%nat by lia.
      replace (Z.to_nat (lo - k)) with 0%nat by lia.
      replace (Z.to_nat (hi - Z.max lo k))
        with (S (Z.to_nat (hi - Z.max lo (k + 1)))) by lia.
      reflexivity.
    + replace (Z.to_nat (hi - Z.max lo (k + 1))) with 0%nat by lia.
      replace (Z.to_nat (hi - Z.max lo k)) with 0%nat by lia.
      reflexivity.
    + replace (Z.to_nat (lo - k)) with (S (Z.to_nat (lo - (k + 1)))) by lia.
      replace (Z.max lo (k + 1)) with (Z.max lo k) by lia.
      reflexivity.
    + replace (Z.to_nat (lo - k)) with (S (Z.to_nat (lo - (k + 1)))) by lia.
      replace (Z.max lo (k + 1)) with (Z.max lo k) by lia.
      reflexivity.
Qed.

(** On indices that are not negative, [slice] returns the lines of the
    interval. *)
Lemma slice_linesIn {A} (lines : list A) (lo hi : Z) :
  0 <= lo -> 0 <= hi -> Js.slice lines lo hi = linesIn lines lo hi.
Proof.
  intros Hlo Hhi. rewrite slice_nonneg by assumption.
  unfold linesIn. rewrite linesIn_from.
  rewrite Z.sub_0_r. f_equal. lia.
Qed.

(** C8, as the code has it: the three slices of [extractContext] never read
    an index outside [[0, L)], whatever the integers [start], [end] and
    [context]; and when [start], [end] and [end + context] are not negative,
    they are the lines of [[max(0, start - context), start)], of
    [[start, end)] and of [[end, min(L, end + context))], so that the result
    is the window of the specification. *)
Theorem extractContext_window
  (lines : list string) (start end_ context startLineNumber : Z) :
  Forall (fun i => 0 <= i < len lines)
    (extractContextReads (len lines) start end_ context)
  /\ (0 <= start -> 0 <= end_ -> 0 <= end_ + context ->
      Js.slice lines (Z.max 0 (start - context)) start
        = linesIn lines (Z.max 0 (start - context)) start
      /\ Js.slice lines start end_ = linesIn lines start end_
      /\ Js.slice lines end_ (Z.min (len lines) (end_ + context))
         = linesIn lines end_ (Z.min (len lines) (end_ + context))
      /\ extractContext lines start end_ context startLineNumber
         = windowOf lines start end_ context startLineNumber).
Proof.
  split.
  - unfold extractContextReads.
    assert (Hlen : 0 <= len lines) by (unfold len; lia).
    repeat (apply Forall_app; split); now apply sliceIndices_in_range.
  - intros Hs He Hc.
    assert (Hlen : 0 <= len lines) by (unfold len; lia).
    assert (H1 := slice_linesIn lines (Z.max 0 (start - context)) start
                    ltac:(lia) Hs).
    assert (H2 := slice_linesIn lines start end_ Hs He).
    assert (H3 := slice_linesIn lines end_ (Z.min (len lines) (end_ + context))
                    He ltac:(lia)).
    repeat split; try assumption.
    unfold extractContext, windowOf. fold (len lines).
    now rewrite H1, H2, H3.
Qed.

Lemma extractContext_window_witness :
  Forall (fun i => 0 <= i < 3) (extractContextReads 3 1 2 5)
  /\ extractContext ["a"; "b"; "c"] 1 2 5 1
     = {| before := "   1: a"; changed := "   2: b"; after := "   3: c" |}.
Proof.
  destruct (extractContext_window ["a"; "b"; "c"] 1 2 5 1) as [Hreads Hwin].
  split.
  - exact Hreads.
  - destruct (Hwin ltac:(lia) ltac:(lia) ltac:(lia)) as (_ & _ & _ & ->).
    reflexivity.
Defined.

(** C8, as the specification words it for all integers, fails on a negative
    [start]: [slice(0, -1)] counts its end from the end of the array, so the
    context before holds lines 1 and 2 where the interval [[0, -1)] is
    empty. *)
Lemma extractContext_negative_start :
  before (extractContext ["a"; "b"; "c"] (-1) 2 5 1)
    = "   1: a" ++ Js.nl ++ "   2: b"
  /\ before (windowOf ["a"; "b"; "c"] (-1) 2 5 1) = ""
  /\ extractContext ["a"; "b"; "c"] (-1) 2 5 1
     <> windowOf ["a"; "b"; "c"] (-1) 2 5 1.
Proof.
  repeat split; try reflexivity.
  intro H. apply (f_equal before) in H. vm_compute in H. discriminate H.
Qed.

(** ** The contents of one file *)

(** A fetch that is guarded out leaves its content empty. *)
Lemma fetchContents_skipped
  (gitApi : GitApi) (repositoryId : string) (project : option string)
  (sourceCommitId targetCommitId : string)
  (change : GitPullRequestChange) (itemPath : string) (log log' : list ItemRequest)
  (beforeContent afterContent : string) :
  fetchContents gitApi repositoryId project sourceCommitId targetCommitId
    change itemPath log = (Resolved (beforeContent, afterContent), log') ->
  (changeTypeIs change 1 = true -> beforeContent = "")
  /\ (changeTypeIs change 2 = true -> afterContent = "").
Proof.
  unfold fetchContents, bind, ret, requestItem, streamToString.
  destruct (changeTypeIs change 1), (changeTypeIs change 2); simpl;
    repeat match goal with
      | |- context [getItemContent ?a ?r ?p ?q ?v] =>
          destruct (getItemContent a r p q v) as [[[?|?]|]|?]; simpl
      end;
    intro H; inversion H; subst; split; intro; congruence.
Qed.

(** C10: splitting on the line feed never yields an empty sequence (there is
    one more line than there are line feeds), the empty content of a skipped
    fetch becomes the single empty line, and the two guards of the
    no-difference fallback hold for the lines of every content. *)
Theorem split_never_empty :
  (forall s, 0 < len (Js.split s) /\ len (Js.split s) = lineFeeds s + 1)
  /\ Js.split "" = [""]
  /\ (forall s, (0 <? len (Js.split s)) = true)
  /\ (forall gitApi repositoryId project sourceCommitId targetCommitId
        change itemPath log log' beforeContent afterContent,
        fetchContents gitApi repositoryId project sourceCommitId targetCommitId
          change itemPath log = (Resolved (beforeContent, afterContent), log') ->
        (changeTypeIs change 1 = true -> Js.split beforeContent = [""])
        /\ (changeTypeIs change 2 = true -> Js.split afterContent = [""])).
Proof.
  repeat split.
  - apply split_length_pos.
  - apply split_length.
  - intro s. apply Z.ltb_lt, split_length_pos.
  - intro Hadd.
    apply fetchContents_skipped in H as [Hb _]. now rewrite (Hb Hadd).
  - intro Hdel.
    apply fetchContents_skipped in H as [_ Ha]. now rewrite (Ha Hdel).
Qed.

Lemma split_never_empty_witness :
  fetchContents (Example.api (Some [Example.iteration]) [] Example.contents)
    "repo" None "s" "t" (Example.file "f" 1) "f" []
  = (Resolved ("", "f@s"), [requestFor "repo" None "f" "s"])
  /\ Js.split "" = [""].
Proof.
  split; [reflexivity |].
  destruct split_never_empty as (_ & _ & _ & Hskipped).
  apply (proj1 (Hskipped (Example.api (Some [Example.iteration]) [] Example.contents)
                  "repo" None "s" "t" (Example.file "f" 1) "f" []
                  [requestFor "repo" None "f" "s"] "" "f@s" eq_refl)).
  reflexivity.
Defined.

(** ** The region loop *)

Lemma regionLoop_regionsFrom (parts : list Change) (st : Cursor) :
  diffRegions (fold_left regionStep parts st)
  = (diffRegions st ++ regionsFrom (beforeIdx st) (afterIdx st) parts)%list.
Proof.
  revert st. induction parts as [| part rest IH]; intro st; simpl.
  - now rewrite app_nil_r.
  - rewrite IH. unfold regionStep.
    destruct (added part); [| destruct (removed part)]; simpl;
      now rewrite <- ?app_assoc.
Qed.

Lemma regionsOfParts_regionsFrom (parts : list Change) :
  regionsOfParts parts = regionsFrom 0 0 parts.
Proof.
  unfold regionsOfParts, regionLoop. now rewrite regionLoop_regionsFrom.
Qed.

Example regions_pure_addition :
  regionsOfParts [Parts.same 2 (Parts.line "a" ++ Parts.line "b");
                  Parts.add 1 (Parts.line "c")]
  = [ {| type := "added"; beforeStart := 2; beforeEnd := 2;
         afterStart := 2; afterEnd := 3 |} ].
Proof. reflexivity. Qed.

Lemma tilesWithGaps_shift (regions : list DiffRegion) (b a B A c : Z) :
  0 <= c ->
  tilesWithGaps regions (b + c) (a + c) B A ->
  tilesWithGaps regions b a B A.
Proof.
  intros Hc. destruct regions as [| r rest]; simpl.
  - lia.
  - intros (H1 & H2 & H3 & H4 & H5 & H6). repeat split; try assumption; lia.
Qed.

Lemma tilesWithGaps_ends (regions : list DiffRegion) (b a B A B' A' : Z) :
  B = B' -> A = A' ->
  tilesWithGaps regions b a B A -> tilesWithGaps regions b a B' A'.
Proof. now intros -> ->. Qed.

Lemma tiles_end (ranges : list (Z * Z)) (lo hi hi' : Z) :
  hi = hi' -> tiles ranges lo hi -> tiles ranges lo hi'.
Proof. now intros ->. Qed.

Lemma regionsFrom_tilesWithGaps (parts : list Change) (b a : Z) :
  Forall (fun p => 0 <= count p) parts ->
  tilesWithGaps (regionsFrom b a parts) b a
    (b + beforeTotal parts) (a + afterTotal parts).
Proof.
  intro Hcount. revert b a.
  induction Hcount as [| part rest Hpart _ IH]; intros b a; simpl.
  - lia.
  - unfold kindOf.
    destruct (added part); [| destruct (removed part)]; simpl.
    + repeat split; try lia; [now left |].
      eapply tilesWithGaps_ends; [| | apply (IH b (a + count part))]; lia.
    + repeat split; try lia; [now right |].
      eapply tilesWithGaps_ends; [| | apply (IH (b + count part) a)]; lia.
    + apply tilesWithGaps_shift with (c := count part); [assumption |].
      eapply tilesWithGaps_ends;
        [| | apply (IH (b + count part) (a + count part))]; lia.
Qed.

Lemma regionsFrom_tiles (parts : list Change) (b a : Z) :
  Forall (fun p => 0 <= count p) parts ->
  Forall (fun p => kindOf p <> Unchanged) parts ->
  tiles (map beforeRange (regionsFrom b a parts)) b (b + beforeTotal parts)
  /\ tiles (map afterRange (regionsFrom b a parts)) a (a + afterTotal parts).
Proof.
  intros Hcount Hkind. revert b a.
  induction parts as [| part rest IH]; intros b a; simpl.
  - lia.
  - inversion Hcount as [| ? ? Hc Hcs]; inversion Hkind as [| ? ? Hk Hks]; subst.
    specialize (IH Hcs Hks). unfold kindOf in *.
    destruct (added part); [| destruct (removed part)]; simpl.
    + destruct (IH b (a + count part)) as [IHb IHa].
      repeat split; try lia; eapply tiles_end; try eassumption; lia.
    + destruct (IH (b + count part) a) as [IHb IHa].
      repeat split; try lia; eapply tiles_end; try eassumption; lia.
    + contradiction.
Qed.

Lemma regionsFrom_app (pre rest : list Change) (b a : Z) :
  regionsFrom b a (pre ++ rest)
  = (regionsFrom b a pre
       ++ regionsFrom (b + beforeTotal pre) (a + afterTotal pre) rest)%list.
Proof.
  revert b a. induction pre as [| p pre IH]; intros b a.
  - simpl. now rewrite !Z.add_0_r.
  - cbn [app regionsFrom beforeTotal afterTotal]. unfold kindOf.
    destruct (added p); [| destruct (removed p)];
      rewrite IH, ?Z.add_0_l, ?Z.add_assoc; reflexivity.
Qed.

Lemma regionsFrom_count (parts : list Change) (b a : Z) :
  List.length (regionsFrom b a parts) = List.length (filter isChanged parts).
Proof.
  revert b a. induction parts as [| p rest IH]; intros b a; [reflexivity |].
  cbn [regionsFrom filter]. unfold isChanged.
  destruct (added p); [| destruct (removed p)]; cbn [orb List.length];
    now rewrite IH.
Qed.

(** A changed part pushes its region at the two indices, and the loop goes
    on from the ends of that region. *)
Lemma regionsFrom_changed (part : Change) (rest : list Change) (b a : Z) :
  isChanged part = true ->
  exists r,
    regionsFrom b a (part :: rest) = r :: regionsFrom (beforeEnd r) (afterEnd r) rest
    /\ regionOf part r /\ beforeStart r = b /\ afterStart r = a.
Proof.
  unfold isChanged, regionOf, kindOf. cbn [regionsFrom].
  destruct (added part); [| destruct (removed part)]; intro H.
  - exists {| type := "added"; beforeStart := b; beforeEnd := b;
              afterStart := a; afterEnd := a + count part |}.
    cbn. repeat split.
  - exists {| type := "removed"; beforeStart := b; beforeEnd := b + count part;
              afterStart := a; afterEnd := a |}.
    cbn. repeat split.
  - discriminate H.
Qed.

(** Unchanged parts push nothing and count the same lines on both axes. *)
Lemma regionsFrom_skipped (skipped : list Change) (b a : Z) :
  Forall (fun p => kindOf p = Unchanged) skipped ->
  regionsFrom b a skipped = []
  /\ beforeTotal skipped = linesOf skipped
  /\ afterTotal skipped = linesOf skipped.
Proof.
  intro Hskipped. revert b a.
  induction Hskipped as [| p rest Hp _ IH]; intros b a; [now repeat split |].
  cbn [regionsFrom beforeTotal afterTotal]. rewrite Hp.
  unfold kindOf in Hp.
  destruct (added p); [discriminate Hp |].
  destruct (removed p); [discriminate Hp |].
  destruct (IH (b + count p) (a + count p)) as (-> & -> & ->).
  now repeat split.
Qed.

(** C1, as the code has it: the list holds the added and the removed runs
    only, one per added or removed part and in their order.  The region of a
    part starts, on each axis, where the lines counted by the parts before
    it end, so the lines between two consecutive regions are exactly those
    of the unchanged parts the loop skipped between them, as many on both
    axes.  The regions lie in document order without overlapping and, with
    the unchanged runs, cover [[0, B)] and [[0, A)], [B] and [A] being the
    lines the parts of the diff count for before and for after.  When the
    diff has no unchanged part, the regions alone partition [[0, B)] and
    [[0, A)]. *)
Theorem regions_tile_with_unchanged_gaps (parts : list Change) :
  Forall (fun p => 0 <= count p) parts ->
  tilesWithGaps (regionsOfParts parts) 0 0 (beforeTotal parts) (afterTotal parts)
  /\ (Forall (fun p => kindOf p <> Unchanged) parts ->
      partitions (regionsOfParts parts) (beforeTotal parts) (afterTotal parts))
  /\ List.length (regionsOfParts parts) = List.length (filter isChanged parts)
  /\ (forall pre part post,
         parts = (pre ++ part :: post)%list ->
         isChanged part = true ->
         exists r,
           nth_error (regionsOfParts parts) (List.length (filter isChanged pre))
             = Some r
           /\ regionOf part r
           /\ beforeStart r = beforeTotal pre
           /\ afterStart r = afterTotal pre)
  /\ (forall pre first skipped next post,
         parts = (pre ++ first :: skipped ++ next :: post)%list ->
         isChanged first = true ->
         isChanged next = true ->
         Forall (fun p => kindOf p = Unchanged) skipped ->
         exists r1 r2,
           nth_error (regionsOfParts parts) (List.length (filter isChanged pre))
             = Some r1
           /\ nth_error (regionsOfParts parts)
                (S (List.length (filter isChanged pre))) = Some r2
           /\ regionOf first r1
           /\ regionOf next r2
           /\ beforeStart r2 - beforeEnd r1 = linesOf skipped
           /\ afterStart r2 - afterEnd r1 = linesOf skipped).
Proof.
  intro Hcount. rewrite regionsOfParts_regionsFrom.
  split; [apply (regionsFrom_tilesWithGaps parts 0 0 Hcount) |].
  split; [intro Hkind; apply (regionsFrom_tiles parts 0 0 Hcount Hkind) |].
  split; [apply regionsFrom_count |].
  split.
  - intros pre part post -> Hchanged.
    rewrite regionsFrom_app, !Z.add_0_l.
    destruct (regionsFrom_changed part post (beforeTotal pre) (afterTotal pre)
                Hchanged) as (r & -> & Hregion & Hb & Ha).
    exists r. rewrite <- (regionsFrom_count pre 0 0).
    rewrite nth_error_app2, Nat.sub_diag by lia.
    now repeat split.
  - intros pre first skipped next post -> Hfirst Hnext Hskipped.
    rewrite regionsFrom_app, !Z.add_0_l.
    destruct (regionsFrom_changed first (skipped ++ next :: post)
                (beforeTotal pre) (afterTotal pre) Hfirst)
      as (r1 & -> & Hregion1 & _ & _).
    rewrite regionsFrom_app.
    destruct (regionsFrom_skipped skipped (beforeEnd r1) (afterEnd r1) Hskipped)
      as (-> & -> & ->).
    destruct (regionsFrom_changed next post (beforeEnd r1 + linesOf skipped)
                (afterEnd r1 + linesOf skipped) Hnext)
      as (r2 & -> & Hregion2 & Hb & Ha).
    exists r1, r2. rewrite <- (regionsFrom_count pre 0 0).
    rewrite !nth_error_app2 by lia.
    replace (S (List.length (regionsFrom 0 0 pre))
             - List.length (regionsFrom 0 0 pre))%nat with 1%nat by lia.
    rewrite Nat.sub_diag. cbn [app nth_error].
    repeat split; try assumption; lia.
Qed.

Lemma regions_tile_with_unchanged_gaps_witness :
  let parts := [Parts.same 1 (Parts.line "a"); Parts.remove 1 (Parts.line "b");
                Parts.same 1 (Parts.line "c")] in
  isLineDiff (Parts.line "a" ++ Parts.line "b" ++ Parts.line "c")
    (Parts.line "a" ++ Parts.line "c") parts = true
  /\ tilesWithGaps (regionsOfParts parts) 0 0 3 2
  /\ exists r,
       nth_error (regionsOfParts parts) 0 = Some r
       /\ regionOf (Parts.remove 1 (Parts.line "b")) r
       /\ beforeStart r = 1
       /\ afterStart r = 1.
Proof.
  split; [reflexivity |].
  destruct (regions_tile_with_unchanged_gaps
              [Parts.same 1 (Parts.line "a"); Parts.remove 1 (Parts.line "b");
               Parts.same 1 (Parts.line "c")])
    as (Hgaps & _ & _ & Hplace & _).
  - repeat constructor; simpl; lia.
  - split; [exact Hgaps |].
    apply (Hplace [Parts.same 1 (Parts.line "a")] (Parts.remove 1 (Parts.line "b"))
             [Parts.same 1 (Parts.line "c")] eq_refl eq_refl).
Defined.

(** C1, as the specification words it, fails on its own scenario of a pure
    addition: the only region is the added one, whose before-range [[2, 2)]
    does not start at 0, and the lines of before are three. *)
Lemma partition_fails_on_pure_addition :
  let before := Parts.line "a" ++ Parts.line "b" in
  let after := before ++ Parts.line "c" in
  let parts := [Parts.same 2 before; Parts.add 1 (Parts.line "c")] in
  isLineDiff before after parts = true
  /\ map beforeRange (regionsOfParts parts) = [(2, 2)]
  /\ map afterRange (regionsOfParts parts) = [(2, 3)]
  /\ len (Js.split before) = 3
  /\ len (Js.split after) = 4
  /\ ~ partitions (regionsOfParts parts) (len (Js.split before)) (len (Js.split after)).
Proof.
  cbv zeta. repeat split.
  intros [Hbefore _]. vm_compute in Hbefore.
  destruct Hbefore as [Hstart _]. discriminate Hstart.
Qed.

Lemma regionsFrom_head_bounds (parts : list Change) (b a : Z) :
  Forall (fun p => 0 < count p) parts ->
  match regionsFrom b a parts with
  | r :: _ => b <= beforeStart r /\ a <= afterStart r
  | [] => True
  end.
Proof.
  intro Hcount. revert b a.
  induction Hcount as [| part rest Hpart _ IH]; intros b a; simpl; [exact I |].
  destruct (added part); [| destruct (removed part)]; simpl; try lia.
  specialize (IH (b + count part) (a + count part)).
  destruct (regionsFrom (b + count part) (a + count part) rest); [exact I | lia].
Qed.

Lemma regionsFrom_separated (parts : list Change) (b a : Z) :
  coalesced parts ->
  Forall (fun p => 0 < count p) parts ->
  separated (regionsFrom b a parts).
Proof.
  revert b a. induction parts as [| p rest IH]; intros b a Hco Hcount; [exact I |].
  inversion Hcount as [| ? ? Hp Hrest]; subst.
  assert (Hco' : coalesced rest) by (destruct rest; [exact I | apply Hco]).
  assert (Hnext : forall q rest', rest = q :: rest' -> kindOf p <> kindOf q)
    by (intros q rest' ->; apply Hco).
  simpl. unfold kindOf in Hnext.
  destruct (added p) eqn:Hadd; [| destruct (removed p) eqn:Hrem].
  - specialize (IH b (a + count p) Hco' Hrest).
    destruct rest as [| q rest']; [exact I |].
    specialize (Hnext q rest' eq_refl).
    inversion Hrest as [| ? ? Hq Hrest']; subst.
    simpl in *.
    destruct (added q); [congruence |].
    destruct (removed q).
    + split; [simpl; discriminate | exact IH].
    + pose proof (regionsFrom_head_bounds rest' (b + count q) (a + count p + count q)
                    Hrest') as Hhead.
      destruct (regionsFrom (b + count q) (a + count p + count q) rest');
        [exact I |].
      split; [simpl; lia | exact IH].
  - specialize (IH (b + count p) a Hco' Hrest).
    destruct rest as [| q rest']; [exact I |].
    specialize (Hnext q rest' eq_refl).
    inversion Hrest as [| ? ? Hq Hrest']; subst.
    simpl in *.
    destruct (added q).
    + split; [simpl; discriminate | exact IH].
    + destruct (removed q); [congruence |].
      pose proof (regionsFrom_head_bounds rest' (b + count p + count q) (a + count q)
                    Hrest') as Hhead.
      destruct (regionsFrom (b + count p + count q) (a + count q) rest');
        [exact I |].
      split; [simpl; lia | exact IH].
  - apply IH; assumption.
Qed.

(** C5, as the code has it: when the parts of the diff alternate in kind and
    each counts at least one line, two consecutive regions of the same kind
    are never adjacent: an unchanged run, which the list leaves out, lies
    between them on both axes. *)
Theorem regions_same_kind_separated (parts : list Change) :
  coalesced parts ->
  Forall (fun p => 0 < count p) parts ->
  separated (regionsOfParts parts).
Proof.
  intros Hco Hcount. rewrite regionsOfParts_regionsFrom.
  now apply regionsFrom_separated.
Qed.

Lemma regions_same_kind_separated_witness :
  let parts := [Parts.remove 1 (Parts.line "a"); Parts.same 1 (Parts.line "b");
                Parts.remove 1 (Parts.line "c")] in
  coalesced parts /\ separated (regionsOfParts parts).
Proof.
  assert (Hco : coalesced
                  [Parts.remove 1 (Parts.line "a"); Parts.same 1 (Parts.line "b");
                   Parts.remove 1 (Parts.line "c")])
    by (simpl; repeat split; discriminate).
  split; [exact Hco |].
  apply regions_same_kind_separated; [exact Hco |].
  repeat constructor; simpl; lia.
Defined.

(** C5, as the specification words it, fails when a line is kept between two
    removed lines: the diff of [a b c] against [b] removes [a], keeps [b] and
    removes [c], and the list holds the two removed regions one after the
    other. *)
Lemma consecutive_removed_regions :
  let before := Parts.line "a" ++ Parts.line "b" ++ Parts.line "c" in
  let after := Parts.line "b" in
  let parts := [Parts.remove 1 (Parts.line "a"); Parts.same 1 (Parts.line "b");
                Parts.remove 1 (Parts.line "c")] in
  isLineDiff before after parts = true
  /\ coalesced parts
  /\ regionsOfParts parts
     = [ {| type := "removed"; beforeStart := 0; beforeEnd := 1;
            afterStart := 0; afterEnd := 0 |};
         {| type := "removed"; beforeStart := 2; beforeEnd := 3;
            afterStart := 1; afterEnd := 1 |} ]
  /\ ~ noAdjacentSameKind (regionsOfParts parts).
Proof.
  cbv zeta. split; [reflexivity |]. split; [simpl; repeat split; discriminate |].
  split; [reflexivity |].
  intros [Hdiff _]. now apply Hdiff.
Qed.

(** ** Identical contents *)

Lemma regionsFrom_kinds (parts : list Change) (b a : Z) :
  Forall (fun r => type r = "added" \/ type r = "removed") (regionsFrom b a parts).
Proof.
  revert b a. induction parts as [| p rest IH]; intros b a; simpl; [constructor |].
  destruct (added p); [| destruct (removed p)]; try constructor; auto.
Qed.

Lemma regionsFrom_unchanged (parts : list Change) (b a : Z) :
  Forall (fun p => kindOf p = Unchanged) parts <-> regionsFrom b a parts = [].
Proof.
  revert b a. induction parts as [| p rest IH]; intros b a; simpl.
  - split; [reflexivity | constructor].
  - split.
    + intro H. inversion H as [| ? ? Hp Hrest]; subst.
      unfold kindOf in Hp.
      destruct (added p); [discriminate |].
      destruct (removed p); [discriminate |]. now apply IH.
    + destruct (added p) eqn:Hadd; [discriminate |].
      destruct (removed p) eqn:Hrem; [discriminate |].
      intro H. constructor.
      * unfold kindOf. now rewrite Hadd, Hrem.
      * now apply IH in H.
Qed.

(** C3, as the code has it: no region is ever of an unchanged kind, and when
    the diff of a content against itself has only unchanged parts, the
    region list is empty and the file is rendered by the no-difference
    fallback. *)
Theorem identical_contents_give_no_region :
  (forall parts,
      Forall (fun r => type r = "added" \/ type r = "removed") (regionsOfParts parts))
  /\ (forall (diffLines : string -> string -> list Change) (A : string),
         Forall (fun p => kindOf p = Unchanged) (diffLines A A) ->
         regionsOfParts (diffLines A A) = []
         /\ renderDiff diffLines A A = renderFallback (Js.split A) (Js.split A)).
Proof.
  split.
  - intro parts. rewrite regionsOfParts_regionsFrom. apply regionsFrom_kinds.
  - intros diffLines A Hsame.
    assert (Hnil : regionsOfParts (diffLines A A) = []).
    { rewrite regionsOfParts_regionsFrom. now apply regionsFrom_unchanged. }
    split; [exact Hnil |].
    unfold renderDiff. now rewrite Hnil.
Qed.

Lemma identical_contents_give_no_region_witness :
  regionsOfParts ((fun before _ => [Parts.same (lineCount before) before]) "a" "a") = [].
Proof.
  apply (proj2 identical_contents_give_no_region
           (fun before _ => [Parts.same (lineCount before) before]) "a").
  repeat constructor.
Defined.

(** C3, as the specification words it, fails on the one-line content [a]:
    its diff against itself is one unchanged part, for which the loop pushes
    nothing, so the list is empty and not the single unchanged region. *)
Lemma no_unchanged_region_for_identical_contents :
  let A := "a" in
  let parts := [Parts.same 1 A] in
  isLineDiff A A parts = true
  /\ regionsOfParts parts = []
  /\ regionsOfParts parts <> [wholeUnchanged (Js.split A)].
Proof.
  cbv zeta. repeat split. discriminate.
Qed.

(** ** The report loop *)

Lemma append_assoc (a b c : string) : (a ++ b) ++ c = a ++ b ++ c.
Proof. induction a as [| x a IH]; simpl; [reflexivity | now rewrite IH]. Qed.

Lemma append_nil_r (a : string) : a ++ "" = a.
Proof. induction a as [| x a IH]; simpl; [reflexivity | now rewrite IH]. Qed.

Section ReportFacts.

Variable gitApi : GitApi.
Variable diffLines : string -> string -> list Change.
Variables (repositoryId : string) (pullRequestId : Z) (project : option string).
Variable includeContent : bool.
Variables (sourceCommitId targetCommitId : string).

Local Abbreviation fetchContents' :=
  (fetchContents gitApi repositoryId project sourceCommitId targetCommitId).
Local Abbreviation contentsOf' :=
  (contentsOf gitApi repositoryId project sourceCommitId targetCommitId).
Local Abbreviation beforeFetches' := (beforeFetches repositoryId project targetCommitId).
Local Abbreviation afterFetches' :=
  (afterFetches gitApi repositoryId project sourceCommitId targetCommitId).
Local Abbreviation fetchesOf' :=
  (fetchesOf gitApi repositoryId project includeContent sourceCommitId targetCommitId).
Local Abbreviation sectionText' :=
  (sectionText gitApi diffLines repositoryId project includeContent
     sourceCommitId targetCommitId).
Local Abbreviation changeSection' :=
  (changeSection gitApi diffLines repositoryId project includeContent
     sourceCommitId targetCommitId).
Local Abbreviation report' :=
  (report gitApi diffLines repositoryId project includeContent
     sourceCommitId targetCommitId).

(** The [try] block: its outcome and the requests it adds to the log. *)
Lemma fetchContents_spec (change : GitPullRequestChange) (itemPath : string)
  (log : list ItemRequest) :
  fetchContents' change itemPath log
  = (contentsOf' change itemPath,
     (log ++ beforeFetches' change itemPath ++ afterFetches' change itemPath)%list).
Proof.
  unfold fetchContents, contentsOf, beforeFetches, afterFetches, beforeOf, afterOf,
    fetched, bind, ret, requestItem, streamToString, requestFor, failed.
  destruct (changeTypeIs change 1), (changeTypeIs change 2); simpl;
    repeat match goal with
      | |- context [getItemContent ?a ?r ?p ?q ?v] =>
          destruct (getItemContent a r p q v) as [[[?|?]|]|?]; simpl
      end;
    rewrite <- ?app_assoc, ?app_nil_r; reflexivity.
Qed.

Lemma changeSection_spec (change : GitPullRequestChange) (log : list ItemRequest) :
  changeSection' change log = (sectionText' change, (log ++ fetchesOf' change)%list).
Proof.
  unfold changeSection, sectionText, fetchesOf.
  destruct (contentPath includeContent change) as [itemPath |].
  - rewrite fetchContents_spec.
    destruct (contentsOf' change itemPath) as [[b a] | e]; reflexivity.
  - now rewrite app_nil_r.
Qed.

Lemma report_from (changes : list GitPullRequestChange) (markdown : string)
  (log : list ItemRequest) :
  fold_left
    (reportStep gitApi diffLines repositoryId project includeContent
       sourceCommitId targetCommitId) changes (markdown, log)
  = (markdown ++ String.concat "" (map sectionText' changes),
     (log ++ flat_map fetchesOf' changes)%list).
Proof.
  revert markdown log. induction changes as [| change rest IH]; intros markdown log.
  - simpl. now rewrite append_nil_r, app_nil_r.
  - cbn [fold_left]. unfold reportStep at 2. cbn [fst snd].
    rewrite changeSection_spec, IH. cbn [map flat_map].
    rewrite <- app_assoc. f_equal.
    rewrite append_assoc. f_equal.
    destruct rest as [| next rest']; [now rewrite append_nil_r |].
    cbn [map String.concat]. reflexivity.
Qed.

(** The report is its title followed by the sections of the changes, in
    their order; its requests are those of the changes, in their order. *)
Lemma report_spec (changes : list GitPullRequestChange) :
  report' changes
  = (title ++ String.concat "" (map sectionText' changes),
     flat_map fetchesOf' changes).
Proof. unfold report. now rewrite report_from. Qed.

End ReportFacts.

(** The handler fails with a message, or answers with the report of the
    page of the change list. *)
Lemma handler_spec (gitApi : GitApi) (diffLines : string -> string -> list Change)
  (repositoryId : string) (pullRequestId : Z) (project : option string)
  (top skip : Z) (includeContent : bool) :
  readPullRequestFileDiffs gitApi diffLines repositoryId pullRequestId project
    top skip includeContent
  = match changeList gitApi repositoryId pullRequestId project with
    | inl message => failure message
    | inr (source, target, changes) =>
        ({| text :=
              title ++ String.concat ""
                (map (sectionText gitApi diffLines repositoryId project
                        includeContent source target)
                   (paginate top skip changes));
            isError := false |},
         flat_map (fetchesOf gitApi repositoryId project includeContent source target)
           (paginate top skip changes))
    end.
Proof.
  unfold readPullRequestFileDiffs, changeList.
  destruct (getPullRequestIterations gitApi repositoryId pullRequestId project)
    as [[| first rest] |]; try reflexivity.
  cbv zeta.
  destruct (commitOf (sourceRefCommit (last rest first))) as [source |];
    [| reflexivity].
  destruct (commitOf (targetRefCommit (last rest first))) as [target |];
    [| reflexivity].
  rewrite report_spec.
  destruct (getPullRequestIterationChanges gitApi repositoryId pullRequestId _ project)
    as [[[entries |]] |]; reflexivity.
Qed.

(** ** Content fetches of one change *)

(** The requests one turn of the report loop adds to the log. *)
Lemma changeSection_requests
  (gitApi : GitApi) (diffLines : string -> string -> list Change)
  (repositoryId : string) (project : option string) (includeContent : bool)
  (sourceCommitId targetCommitId : string)
  (change : GitPullRequestChange) (log : list ItemRequest) :
  snd (changeSection gitApi diffLines repositoryId project includeContent
         sourceCommitId targetCommitId change log)
  = (log ++ fetchesOf gitApi repositoryId project includeContent sourceCommitId
              targetCommitId change)%list.
Proof. now rewrite changeSection_spec. Qed.

(** C2 on the code: the guard of the after-fetch compares the change type
    with 2, which is the type of an edit; a delete is 16.  For a file with a
    path, read with [includeContent], whose before-fetch does not fail: an
    edited file has its before-content fetched and nothing else, and its
    after-content stays empty, where the specification fetches both
    contents; a deleted file has both contents fetched, where the
    specification fetches the before-content only. *)
Theorem after_fetch_guard_tests_edit
  (gitApi : GitApi) (diffLines : string -> string -> list Change)
  (repositoryId : string) (project : option string)
  (sourceCommitId targetCommitId : string)
  (change : GitPullRequestChange) (itemPath : string) (log : list ItemRequest) :
  contentPath true change = Some itemPath ->
  failed (beforeOf gitApi repositoryId project targetCommitId change itemPath) = false ->
  let issued :=
    snd (changeSection gitApi diffLines repositoryId project true
           sourceCommitId targetCommitId change log) in
  let before := requestFor repositoryId project itemPath targetCommitId in
  let after := requestFor repositoryId project itemPath sourceCommitId in
  (changeType change = Some ChangeType.Edit ->
   issued = (log ++ [before])%list
   /\ (exists beforeContent,
          fst (fetchContents gitApi repositoryId project sourceCommitId
                 targetCommitId change itemPath log)
          = Resolved (beforeContent, ""))
   /\ fetchesByChangeType repositoryId project sourceCommitId targetCommitId
        change itemPath = [before; after])
  /\ (changeType change = Some ChangeType.Delete ->
      issued = (log ++ [before; after])%list
      /\ fetchesByChangeType repositoryId project sourceCommitId targetCommitId
           change itemPath = [before]).
Proof.
  intros Hpath Hbefore. cbv zeta.
  rewrite changeSection_requests, fetchContents_spec.
  unfold fetchesOf. rewrite Hpath.
  unfold beforeFetches, afterFetches, fetchesByChangeType, contentsOf, afterOf.
  rewrite Hbefore. unfold beforeOf in *. unfold changeTypeIs in *.
  split; intro Htype; rewrite Htype in *; cbn in *.
  - repeat split.
    destruct (fetched gitApi repositoryId project itemPath targetCommitId)
      as [beforeContent | e]; [| discriminate Hbefore].
    now exists beforeContent.
  - now split.
Qed.

Lemma after_fetch_guard_tests_edit_witness :
  let gitApi := Example.api (Some [Example.iteration]) [] Example.contents in
  let change := Example.file "f" ChangeType.Edit in
  snd (changeSection gitApi Example.wholeFileDiff "repo" None true "s" "t" change [])
    = [requestFor "repo" None "f" "t"]
  /\ fst (fetchContents gitApi "repo" None "s" "t" change "f" [])
     = Resolved ("f@t", "")
  /\ String.index 0 "### Diff Region (removed) - Lines 1-1"
       (fst (changeSection gitApi Example.wholeFileDiff "repo" None true "s" "t"
               change []))
     = Some 27%nat.
Proof.
  cbv zeta.
  destruct (after_fetch_guard_tests_edit
              (Example.api (Some [Example.iteration]) [] Example.contents)
              Example.wholeFileDiff "repo" None "s" "t"
              (Example.file "f" ChangeType.Edit) "f" [] eq_refl eq_refl)
    as [Hedit _].
  destruct (Hedit eq_refl) as (Hissued & _ & _).
  split; [exact Hissued |]. split; [reflexivity |]. vm_compute. reflexivity.
Defined.

(** ** No iterations, no changes *)

(** C6, as the code has it: without iterations the handler answers
    [No iterations found for this pull request.] with [isError: true] and
    fetches nothing; with an empty change list it answers the report reduced
    to its title, without the error flag. *)
Theorem no_iterations_is_an_error
  (gitApi : GitApi) (diffLines : string -> string -> list Change)
  (repositoryId : string) (pullRequestId : Z) (project : option string)
  (top skip : Z) (includeContent : bool) :
  let result :=
    readPullRequestFileDiffs gitApi diffLines repositoryId pullRequestId project
      top skip includeContent in
  (getPullRequestIterations gitApi repositoryId pullRequestId project = None
   \/ getPullRequestIterations gitApi repositoryId pullRequestId project = Some [] ->
   result = ({| text := "No iterations found for this pull request.";
                isError := true |}, []))
  /\ (forall source target,
         changeList gitApi repositoryId pullRequestId project
           = inr (source, target, []) ->
         result = ({| text := "# PR File Diffs" ++ Js.nl ++ Js.nl;
                      isError := false |}, [])).
Proof.
  cbv zeta. split.
  - unfold readPullRequestFileDiffs. now intros [-> | ->].
  - intros source target Hlist. rewrite handler_spec, Hlist.
    unfold paginate, Js.slice. cbn [List.length Z.of_nat].
    assert (Hnil : forall s e, Js.present (map (@Js.at_ GitPullRequestChange [])
                                            (Js.sliceIndices 0 s e)) = []).
    { intros s e. unfold Js.sliceIndices, Js.relativeIndex.
      replace (Z.to_nat _) with 0%nat; [reflexivity |].
      destruct (Z.ltb_spec s 0), (Z.ltb_spec e 0); lia. }
    rewrite Hnil. cbn [map flat_map String.concat].
    unfold title. now rewrite append_nil_r.
Qed.

Lemma no_iterations_is_an_error_witness :
  readPullRequestFileDiffs (Example.api (Some []) [] Example.contents)
    Example.wholeFileDiff "repo" 1 None 100 0 false
  = ({| text := "No iterations found for this pull request."; isError := true |}, [])
  /\ readPullRequestFileDiffs (Example.api (Some [Example.iteration]) [] Example.contents)
       Example.wholeFileDiff "repo" 1 None 100 0 false
     = ({| text := "# PR File Diffs" ++ Js.nl ++ Js.nl; isError := false |}, []).
Proof.
  split.
  - apply (proj1 (no_iterations_is_an_error
                    (Example.api (Some []) [] Example.contents)
                    Example.wholeFileDiff "repo" 1 None 100 0 false)).
    right. reflexivity.
  - apply (proj2 (no_iterations_is_an_error
                    (Example.api (Some [Example.iteration]) [] Example.contents)
                    Example.wholeFileDiff "repo" 1 None 100 0 false) "s" "t").
    reflexivity.
Defined.

(** C6, as the specification words it, fails for a pull request without
    iterations: the answer carries the error flag. *)
Lemma no_iterations_sets_the_error_flag :
  isError
    (fst (readPullRequestFileDiffs (Example.api (Some []) [] Example.contents)
            Example.wholeFileDiff "repo" 1 None 100 0 false)) = true
  /\ isError
       (fst (readPullRequestFileDiffs (Example.api None [] Example.contents)
               Example.wholeFileDiff "repo" 1 None 100 0 false)) <> false.
Proof. split; [reflexivity | discriminate]. Qed.

(** ** A file whose contents cannot be fetched *)

Lemma concat_cons (x : string) (l : list string) :
  String.concat "" (x :: l) = x ++ String.concat "" l.
Proof. destruct l; simpl; [now rewrite append_nil_r | reflexivity]. Qed.

Lemma concat_app (l1 l2 : list string) :
  String.concat "" (l1 ++ l2) = String.concat "" l1 ++ String.concat "" l2.
Proof.
  induction l1 as [| x l1 IH]; [reflexivity |].
  rewrite <- app_comm_cons, !concat_cons, IH. now rewrite append_assoc.
Qed.

(** C7: when the before-fetch or the after-fetch of one file of the page
    fails, the handler still answers without the error flag; the report
    holds the sections of the files before it, then the header of the file
    with the note [Could not retrieve file content] in place of its diff
    block, then the sections of the files after it. *)
Theorem fetch_failure_is_local
  (gitApi : GitApi) (diffLines : string -> string -> list Change)
  (repositoryId : string) (pullRequestId : Z) (project : option string)
  (top skip : Z) (includeContent : bool)
  (source target : string) (changes pre post : list GitPullRequestChange)
  (failing : GitPullRequestChange) (itemPath : string) (error : Thrown) :
  changeList gitApi repositoryId pullRequestId project = inr (source, target, changes) ->
  paginate top skip changes = (pre ++ failing :: post)%list ->
  contentPath includeContent failing = Some itemPath ->
  (beforeOf gitApi repositoryId project target failing itemPath = Rejected error
   \/ (failed (beforeOf gitApi repositoryId project target failing itemPath) = false
       /\ afterOf gitApi repositoryId project source failing itemPath
          = Rejected error)) ->
  let result :=
    fst (readPullRequestFileDiffs gitApi diffLines repositoryId pullRequestId project
           top skip includeContent) in
  let sections :=
    map (sectionText gitApi diffLines repositoryId project includeContent
           source target) in
  isError result = false
  /\ text result
     = title ++ String.concat "" (sections pre)
         ++ (changeHeader failing
               ++ "*Could not retrieve file content: " ++ errorMessage error ++ "*"
               ++ Js.nl ++ Js.nl)
         ++ String.concat "" (sections post).
Proof.
  intros Hlist Hpage Hpath Hfail. cbv zeta.
  rewrite handler_spec, Hlist, Hpage. cbn [fst text isError].
  split; [reflexivity |].
  rewrite map_app, concat_app. cbn [map]. rewrite concat_cons.
  do 3 f_equal.
  unfold sectionText at 1. rewrite Hpath. unfold contentsOf.
  destruct Hfail as [-> | [Hbefore ->]]; [reflexivity |].
  destruct (beforeOf gitApi repositoryId project target failing itemPath);
    [reflexivity | discriminate Hbefore].
Qed.

Lemma fetch_failure_is_local_witness :
  let changes := [Example.file "a" 8; Example.file "broken" 8; Example.file "c" 8] in
  let gitApi := Example.api (Some [Example.iteration]) changes Example.contents in
  let result :=
    fst (readPullRequestFileDiffs gitApi Example.wholeFileDiff "repo" 1 None 100 0
           true) in
  let sections := map (sectionText gitApi Example.wholeFileDiff "repo" None true "s" "t") in
  isError result = false
  /\ text result
     = title ++ String.concat "" (sections [Example.file "a" 8])
         ++ (changeHeader (Example.file "broken" 8)
               ++ "*Could not retrieve file content: boom*" ++ Js.nl ++ Js.nl)
         ++ String.concat "" (sections [Example.file "c" 8]).
Proof.
  cbv zeta.
  apply (fetch_failure_is_local
           (Example.api (Some [Example.iteration])
              [Example.file "a" 8; Example.file "broken" 8; Example.file "c" 8]
              Example.contents)
           Example.wholeFileDiff "repo" 1 None 100 0 true "s" "t"
           [Example.file "a" 8; Example.file "broken" 8; Example.file "c" 8]
           [Example.file "a" 8] [Example.file "c" 8] (Example.file "broken" 8)
           "broken" (ErrorObject "boom")).
  - reflexivity.
  - reflexivity.
  - reflexivity.
  - left. reflexivity.
Defined.

(** ** Pagination *)

(** A request issued for a change asks for the path of that change. *)
Lemma fetchesOf_path (gitApi : GitApi) (repositoryId : string)
  (project : option string) (includeContent : bool) (source target : string)
  (change : GitPullRequestChange) (request : ItemRequest) :
  In request (fetchesOf gitApi repositoryId project includeContent source target change) ->
  changePath change = Some (itemPath request).
Proof.
  unfold fetchesOf, contentPath.
  destruct includeContent; [| intros []].
  destruct (changePath change) as [p |]; [| intros []].
  destruct (nonEmpty p); [| intros []].
  unfold beforeFetches, afterFetches, requestFor.
  destruct (changeTypeIs change 1);
    destruct (changeTypeIs change 2 || failed _);
    simpl; intuition (subst; reflexivity).
Qed.

Lemma page_of_250 {A} (changes : list A) :
  List.length changes = 250%nat ->
  Js.slice changes 100 (100 + 50) = firstn 50 (skipn 100 changes)
  /\ List.length (Js.slice changes 100 (100 + 50)) = 50%nat
  /\ (forall i, (i < 50)%nat ->
        nth_error (Js.slice changes 100 (100 + 50)) i = nth_error changes (100 + i)).
Proof.
  intro Hlen.
  assert (Hslice : Js.slice changes 100 (100 + 50) = firstn 50 (skipn 100 changes)).
  { rewrite slice_nonneg by lia. f_equal. }
  rewrite Hslice. repeat split.
  - rewrite length_firstn, length_skipn, Hlen. reflexivity.
  - intros i Hi. rewrite nth_error_firstn, nth_error_skipn.
    apply Nat.ltb_lt in Hi. now rewrite Hi.
Qed.

(** C9: the handler slices the change list before its loop, so for every
    [skip] and [top] the report holds the sections of
    [changes.slice(skip, skip + top)] in their order and every content
    request asks for the path of a file of that page.  For 250 files with
    [skip = 100] and [top = 50] the page is files 101 to 150 in their order,
    every request is for one of them, and, the paths being distinct, none is
    for any of the 200 other files. *)
Theorem pagination_precedes_fetches
  (gitApi : GitApi) (diffLines : string -> string -> list Change)
  (repositoryId : string) (pullRequestId : Z) (project : option string)
  (includeContent : bool)
  (source target : string) (changes : list GitPullRequestChange) :
  changeList gitApi repositoryId pullRequestId project = inr (source, target, changes) ->
  let run top skip :=
    readPullRequestFileDiffs gitApi diffLines repositoryId pullRequestId project
      top skip includeContent in
  let sections :=
    map (sectionText gitApi diffLines repositoryId project includeContent
           source target) in
  (forall top skip,
      text (fst (run top skip))
        = title ++ String.concat "" (sections (Js.slice changes skip (skip + top)))
      /\ snd (run top skip)
         = flat_map (fetchesOf gitApi repositoryId project includeContent source target)
             (Js.slice changes skip (skip + top))
      /\ (forall request, In request (snd (run top skip)) ->
            exists change,
              In change (Js.slice changes skip (skip + top))
              /\ changePath change = Some (itemPath request)))
  /\ (List.length changes = 250%nat ->
      Js.slice changes 100 (100 + 50) = firstn 50 (skipn 100 changes)
      /\ List.length (Js.slice changes 100 (100 + 50)) = 50%nat
      /\ (forall i, (i < 50)%nat ->
            nth_error (Js.slice changes 100 (100 + 50)) i
              = nth_error changes (100 + i))
      /\ text (fst (run 50 100))
         = title ++ String.concat "" (sections (firstn 50 (skipn 100 changes)))
      /\ (forall request, In request (snd (run 50 100)) ->
            exists i change,
              (100 <= i < 150)%nat
              /\ nth_error changes i = Some change
              /\ changePath change = Some (itemPath request))
      /\ (NoDup (map changePath changes) ->
          forall j other request,
            (j < 100 \/ 150 <= j)%nat ->
            nth_error changes j = Some other ->
            In request (snd (run 50 100)) ->
            changePath other <> Some (itemPath request))).
Proof.
  intros Hlist. cbv zeta.
  assert (Hrun : forall top skip,
             text (fst (readPullRequestFileDiffs gitApi diffLines repositoryId
                          pullRequestId project top skip includeContent))
               = title ++ String.concat ""
                   (map (sectionText gitApi diffLines repositoryId project
                           includeContent source target)
                      (Js.slice changes skip (skip + top)))
             /\ snd (readPullRequestFileDiffs gitApi diffLines repositoryId
                       pullRequestId project top skip includeContent)
                = flat_map (fetchesOf gitApi repositoryId project includeContent
                              source target)
                    (Js.slice changes skip (skip + top))).
  { intros top skip. rewrite handler_spec, Hlist. split; reflexivity. }
  assert (Hreq : forall top skip request,
             In request (snd (readPullRequestFileDiffs gitApi diffLines repositoryId
                                pullRequestId project top skip includeContent)) ->
             exists change,
               In change (Js.slice changes skip (skip + top))
               /\ changePath change = Some (itemPath request)).
  { intros top skip request Hin.
    rewrite (proj2 (Hrun top skip)) in Hin.
    apply in_flat_map in Hin as (change & Hchange & Hin).
    exists change. split; [exact Hchange |].
    now apply fetchesOf_path in Hin. }
  split.
  - intros top skip. destruct (Hrun top skip) as [Htext Hlog].
    repeat split; try assumption. apply Hreq.
  - intro Hlen. destruct (page_of_250 changes Hlen) as (Hslice & Hsize & Hnth).
    assert (Hpage : forall request,
               In request (snd (readPullRequestFileDiffs gitApi diffLines repositoryId
                                  pullRequestId project 50 100 includeContent)) ->
               exists i change,
                 (100 <= i < 150)%nat
                 /\ nth_error changes i = Some change
                 /\ changePath change = Some (itemPath request)).
    { intros request Hin.
      destruct (Hreq 50 100 request Hin) as (change & Hchange & Hpath).
      apply In_nth_error in Hchange as (i & Hi).
      assert (Hlt : (i < 50)%nat).
      { rewrite <- Hsize. apply nth_error_Some. now rewrite Hi. }
      exists (100 + i)%nat, change. rewrite <- Hnth by exact Hlt.
      repeat split; try assumption; lia. }
    repeat split; try assumption.
    + rewrite <- Hslice. apply (Hrun 50 100).
    + intros Hdistinct j other request Hj Hother Hin Hsame.
      destruct (Hpage request Hin) as (i & change & Hi & Hchange & Hpath).
      assert (Heq : nth_error (map changePath changes) i
                    = nth_error (map changePath changes) j).
      { rewrite !nth_error_map, Hchange, Hother. simpl. congruence. }
      apply (proj1 (NoDup_nth_error _) Hdistinct) in Heq.
      * lia.
      * rewrite length_map, Hlen. lia.
Qed.

Lemma pagination_precedes_fetches_witness :
  let changes := Example.files 250 in
  let gitApi := Example.api (Some [Example.iteration]) changes Example.contents in
  List.length changes = 250%nat
  /\ Js.slice changes 100 (100 + 50) = firstn 50 (skipn 100 changes)
  /\ forall request,
       In request
         (snd (readPullRequestFileDiffs gitApi Example.wholeFileDiff "repo" 1 None
                 50 100 true)) ->
       exists i change,
         (100 <= i < 150)%nat
         /\ nth_error changes i = Some change
         /\ changePath change = Some (itemPath request).
Proof.
  cbv zeta.
  assert (Hlen : List.length (Example.files 250) = 250%nat) by reflexivity.
  destruct (pagination_precedes_fetches
              (Example.api (Some [Example.iteration]) (Example.files 250)
                 Example.contents)
              Example.wholeFileDiff "repo" 1 None true "s" "t" (Example.files 250)
              eq_refl) as [_ Hscenario].
  destruct (Hscenario Hlen) as (Hslice & _ & _ & _ & Hpage & _).
  split; [exact Hlen |]. split; [exact Hslice | exact Hpage].
Defined.

(** ** The no-difference fallback *)

(** C4 on the code: the fallback shows the first 50 lines of a side and no
    others.  For a file of sixty lines whose contents did not change, the
    region list is empty, the fallback is taken, and the last line, [END],
    is neither among the lines shown nor anywhere in the rendered block. *)
Theorem fallback_shows_first_lines_only :
  (forall lines : list string, fallbackLines lines = firstn 50 lines)
  /\ let content := Example.sixtyLines in
     let diffLines := fun _ _ : string => [Parts.same 60 content] in
     isLineDiff content content (diffLines content content) = true
     /\ regionsOfParts (diffLines content content) = []
     /\ len (Js.split content) = 60
     /\ last (Js.split content) "" = "END"
     /\ ~ In "END" (fallbackLines (Js.split content))
     /\ String.index 0 "END" (renderDiff diffLines content content) = None
     /\ String.index 0 "(first 50 lines)" (renderDiff diffLines content content)
        = Some 11%nat.
Proof.
  split.
  - intro lines. unfold fallbackLines, maxLines.
    rewrite slice_nonneg by lia. reflexivity.
  - cbv zeta. repeat split; try (vm_compute; reflexivity).
    vm_compute. intuition discriminate.
Qed.

(** * Further properties of the diff tool *)

(** ** Lines *)

Lemma split_without_line_feed (s : string) :
  lineFeeds s = 0 -> Js.split s = [s].
Proof.
  induction s as [| c rest IH]; simpl; [reflexivity |].
  destruct (Ascii.eqb c Js.LF).
  - pose proof (split_length rest). pose proof (split_length_pos rest). lia.
  - intro H. rewrite Z.add_0_l in H. now rewrite (IH H).
Qed.

Lemma split_line_then_rest (l rest : string) :
  lineFeeds l = 0 -> Js.split (l ++ Js.nl ++ rest) = l :: Js.split rest.
Proof.
  induction l as [| c l IH]; simpl.
  - reflexivity.
  - destruct (Ascii.eqb c Js.LF) eqn:Hc.
    + pose proof (split_length l). pose proof (split_length_pos l). lia.
    + intro H. rewrite Z.add_0_l in H.
      unfold Js.nl in IH. simpl in IH. now rewrite (IH H).
Qed.

Lemma lineFeeds_nonneg (s : string) : 0 <= lineFeeds s.
Proof.
  induction s as [| c rest IH]; simpl; [lia |].
  destruct (Ascii.eqb c Js.LF); lia.
Qed.

Lemma join_cons (x y : string) (l : list string) :
  Js.join (x :: y :: l) = x ++ Js.nl ++ Js.join (y :: l).
Proof. reflexivity. Qed.

(** Splitting a content into lines loses nothing: no line holds a line
    feed, and the lines joined by line feeds are the content again.
    Conversely a non-empty sequence of lines without line feeds is what its
    joined text splits into. *)
Theorem split_join_round_trip :
  (forall s, Js.join (Js.split s) = s
             /\ Forall (fun line => lineFeeds line = 0) (Js.split s))
  /\ (forall lines, lines <> [] ->
        Forall (fun line => lineFeeds line = 0) lines ->
        Js.split (Js.join lines) = lines).
Proof.
  split.
  - intro s. induction s as [| c rest [IHjoin IHfree]]; simpl.
    + split; [reflexivity | repeat constructor].
    + destruct (split_cons rest) as (piece & pieces & Hs).
      rewrite Hs in *.
      destruct (Ascii.eqb c Js.LF) eqn:Hc.
      * apply Ascii.eqb_eq in Hc. subst c. split.
        -- rewrite join_cons, IHjoin. reflexivity.
        -- constructor; [reflexivity | exact IHfree].
      * apply Forall_cons_iff in IHfree as [Hpiece Hpieces]. split.
        -- rewrite <- IHjoin. destruct pieces as [| next pieces'].
           ++ reflexivity.
           ++ rewrite !join_cons. reflexivity.
        -- constructor; [| exact Hpieces].
           simpl. rewrite Hc. lia.
  - intros lines Hne Hfree. induction Hfree as [| l rest Hl Hrest IH];
      [contradiction |].
    destruct rest as [| next rest'].
    + unfold Js.join. simpl. now apply split_without_line_feed.
    + rewrite join_cons, split_line_then_rest by exact Hl.
      f_equal. apply IH. discriminate.
Qed.

Lemma split_join_round_trip_witness :
  Js.split (Js.join ["a"; ""; "b"]) = ["a"; ""; "b"].
Proof.
  apply (proj2 split_join_round_trip ["a"; ""; "b"]).
  - discriminate.
  - repeat constructor.
Defined.

(** ** Regions and parts *)

Lemma regionsFrom_regionOf (parts : list Change) (b a : Z) :
  Forall2 regionOf (filter isChanged parts) (regionsFrom b a parts).
Proof.
  revert b a. induction parts as [| p rest IH]; intros b a; simpl; [constructor |].
  unfold isChanged.
  destruct (added p) eqn:Hadd; [| destruct (removed p) eqn:Hrem]; simpl.
  - constructor; [| apply IH].
    unfold regionOf, kindOf. rewrite Hadd. simpl. auto.
  - constructor; [| apply IH].
    unfold regionOf, kindOf. rewrite Hadd, Hrem. simpl. auto.
  - apply IH.
Qed.

Lemma regionLoop_indices (parts : list Change) (st : Cursor) :
  beforeIdx (fold_left regionStep parts st) = beforeIdx st + beforeTotal parts
  /\ afterIdx (fold_left regionStep parts st) = afterIdx st + afterTotal parts.
Proof.
  revert st. induction parts as [| p rest IH]; intro st; simpl; [lia |].
  destruct (IH (regionStep st p)) as [-> ->].
  unfold regionStep, kindOf.
  destruct (added p); [| destruct (removed p)]; simpl; lia.
Qed.

(** The loop pushes one region per added or removed part, in the order of
    the parts: an added region is empty on the before axis and as long as
    its part counts on the after axis, a removed region the other way
    round.  When the loop ends, its two indices are the numbers of lines the
    parts count for before and for after. *)
Theorem one_region_per_changed_part (parts : list Change) :
  Forall2 regionOf (filter isChanged parts) (regionsOfParts parts)
  /\ beforeIdx (regionLoop parts) = beforeTotal parts
  /\ afterIdx (regionLoop parts) = afterTotal parts.
Proof.
  split.
  - rewrite regionsOfParts_regionsFrom. apply regionsFrom_regionOf.
  - unfold regionLoop.
    destruct (regionLoop_indices parts
                {| beforeIdx := 0; afterIdx := 0; diffRegions := [] |}) as [-> ->].
    simpl. lia.
Qed.

(** ** Pages *)

Lemma firstn_then_firstn {A} (n m : nat) (l : list A) :
  (firstn n l ++ firstn m (skipn n l))%list = firstn (n + m) l.
Proof.
  revert l. induction n as [| n IH]; intro l; simpl; [reflexivity |].
  destruct l as [| x l]; simpl.
  - now rewrite firstn_nil.
  - now rewrite IH.
Qed.

(** Two slices that meet make the slice of the whole range. *)
Lemma slice_tile {A} (arr : list A) (a b c : Z) :
  0 <= a <= b -> b <= c ->
  (Js.slice arr a b ++ Js.slice arr b c)%list = Js.slice arr a c.
Proof.
  intros Hab Hbc. rewrite !slice_nonneg by lia.
  assert (Hskip : skipn (Z.to_nat b) arr
                  = skipn (Z.to_nat b - Z.to_nat a) (skipn (Z.to_nat a) arr)).
  { rewrite skipn_skipn. f_equal. lia. }
  rewrite Hskip, firstn_then_firstn. f_equal. lia.
Qed.

Lemma slice_length {A} (arr : list A) (a b : Z) :
  0 <= a -> 0 <= b ->
  len (Js.slice arr a b) = Z.max 0 (Z.min b (len arr) - a).
Proof.
  intros Ha Hb. rewrite slice_nonneg by lia. unfold len.
  rewrite length_firstn, length_skipn. lia.
Qed.

Lemma map_ext_all {A B} (f g : A -> B) (l : list A) :
  (forall x, f x = g x) -> map f l = map g l.
Proof. intro H. induction l as [| x l IH]; simpl; [reflexivity | now rewrite H, IH]. Qed.

Lemma flat_map_nil {A B} (f : A -> list B) (l : list A) :
  (forall x, f x = []) -> flat_map f l = [].
Proof. intro H. induction l as [| x l IH]; simpl; [reflexivity | now rewrite H, IH]. Qed.

(** Once the iterations and the change list are read, the handler without
    [includeContent] asks for no content at all: the report is the title
    followed, for each file of the page, by its header and the separator. *)
Theorem report_without_contents
  (gitApi : GitApi) (diffLines : string -> string -> list Change)
  (repositoryId : string) (pullRequestId : Z) (project : option string)
  (top skip : Z) (source target : string) (changes : list GitPullRequestChange) :
  changeList gitApi repositoryId pullRequestId project = inr (source, target, changes) ->
  readPullRequestFileDiffs gitApi diffLines repositoryId pullRequestId project
    top skip false
  = ({| text := title ++ String.concat ""
                  (map bareSection (paginate top skip changes));
        isError := false |}, []).
Proof.
  intro Hlist. rewrite handler_spec, Hlist.
  rewrite flat_map_nil by reflexivity.
  rewrite (map_ext_all _ bareSection) by reflexivity. reflexivity.
Qed.

Lemma report_without_contents_witness :
  readPullRequestFileDiffs
    (Example.api (Some [Example.iteration]) (Example.files 3) Example.contents)
    Example.wholeFileDiff "repo" 1 None 2 1 false
  = ({| text := title ++ String.concat ""
                  (map bareSection (paginate 2 1 (Example.files 3)));
        isError := false |}, []).
Proof.
  apply (report_without_contents
           (Example.api (Some [Example.iteration]) (Example.files 3) Example.contents)
           Example.wholeFileDiff "repo" 1 None 2 1 "s" "t" (Example.files 3) eq_refl).
Defined.




(** Consecutive pages tile the change list: for a [skip] and two page sizes
    that are not negative, the page of [top1] files at [skip] followed by
    the page of [top2] files at [skip + top1] is the page of [top1 + top2]
    files at [skip]; so are the content requests of the two reports, and the
    sections of the second report follow those of the first. *)
Theorem consecutive_pages_tile
  (gitApi : GitApi) (diffLines : string -> string -> list Change)
  (repositoryId : string) (pullRequestId : Z) (project : option string)
  (includeContent : bool)
  (source target : string) (changes : list GitPullRequestChange)
  (skip top1 top2 : Z) :
  changeList gitApi repositoryId pullRequestId project = inr (source, target, changes) ->
  0 <= skip -> 0 <= top1 -> 0 <= top2 ->
  let run top skip :=
    readPullRequestFileDiffs gitApi diffLines repositoryId pullRequestId project
      top skip includeContent in
  (paginate top1 skip changes ++ paginate top2 (skip + top1) changes)%list
    = paginate (top1 + top2) skip changes
  /\ (snd (run top1 skip) ++ snd (run top2 (skip + top1)))%list
     = snd (run (top1 + top2) skip)
  /\ exists body,
       text (fst (run top2 (skip + top1))) = title ++ body
       /\ text (fst (run (top1 + top2) skip)) = text (fst (run top1 skip)) ++ body.
Proof.
  intros Hlist Hskip Htop1 Htop2. cbv zeta.
  assert (Hpages : (paginate top1 skip changes
                      ++ paginate top2 (skip + top1) changes)%list
                   = paginate (top1 + top2) skip changes).
  { unfold paginate. rewrite slice_tile by lia. f_equal. lia. }
  split; [exact Hpages |].
  rewrite !handler_spec, Hlist. cbn [fst snd text].
  rewrite <- Hpages, flat_map_app, map_app, concat_app.
  split; [reflexivity |].
  eexists. split; [reflexivity |]. now rewrite append_assoc.
Qed.

Lemma consecutive_pages_tile_witness :
  (paginate 2 1 (Example.files 5) ++ paginate 2 (1 + 2) (Example.files 5))%list
  = paginate (2 + 2) 1 (Example.files 5).
Proof.
  apply (consecutive_pages_tile
           (Example.api (Some [Example.iteration]) (Example.files 5) Example.contents)
           Example.wholeFileDiff "repo" 1 None true "s" "t" (Example.files 5)
           1 2 2 eq_refl); lia.
Defined.

(** ** Iterations *)

(** Only the latest iteration counts: the answer is the one the handler
    would give if the pull request had no earlier iteration. *)
Theorem only_the_latest_iteration_counts
  (gitApi : GitApi) (diffLines : string -> string -> list Change)
  (repositoryId : string) (pullRequestId : Z) (project : option string)
  (top skip : Z) (includeContent : bool)
  (earlier : list GitPullRequestIteration) (latest : GitPullRequestIteration) :
  getPullRequestIterations gitApi repositoryId pullRequestId project
    = Some (earlier ++ [latest])%list ->
  readPullRequestFileDiffs gitApi diffLines repositoryId pullRequestId project
    top skip includeContent
  = readPullRequestFileDiffs
      {| getPullRequestIterations := fun _ _ _ => Some [latest];
         getPullRequestIterationChanges := getPullRequestIterationChanges gitApi;
         getItemContent := getItemContent gitApi |}
      diffLines repositoryId pullRequestId project top skip includeContent.
Proof.
  intro Hiterations. unfold readPullRequestFileDiffs.
  rewrite Hiterations. cbn [getPullRequestIterations].
  assert (Hlast : match (earlier ++ [latest])%list with
                  | [] => None
                  | first :: rest => Some (last rest first)
                  end = Some latest).
  { destruct earlier as [| first rest]; [reflexivity |].
    rewrite <- app_comm_cons. f_equal.
    destruct rest as [| second rest']; [reflexivity |].
    change (last ((second :: rest') ++ [latest]) first = latest).
    apply last_last. }
  destruct (earlier ++ [latest])%list as [| first rest];
    [discriminate Hlast |].
  injection Hlast as ->. reflexivity.
Qed.

Lemma only_the_latest_iteration_counts_witness :
  let older :=
    {| id := Some 1; sourceRefCommit := Some {| commitId := Some "old" |};
       targetRefCommit := None |} in
  let changes := [Example.file "a" 8] in
  readPullRequestFileDiffs
    (Example.api (Some [older; Example.iteration]) changes Example.contents)
    Example.wholeFileDiff "repo" 1 None 100 0 true
  = readPullRequestFileDiffs
      (Example.api (Some [Example.iteration]) changes Example.contents)
      Example.wholeFileDiff "repo" 1 None 100 0 true.
Proof.
  cbv zeta.
  apply (only_the_latest_iteration_counts
           (Example.api
              (Some [ {| id := Some 1;
                         sourceRefCommit := Some {| commitId := Some "old" |};
                         targetRefCommit := None |}; Example.iteration ])
              [Example.file "a" 8] Example.contents)
           Example.wholeFileDiff "repo" 1 None 100 0 true
           [ {| id := Some 1; sourceRefCommit := Some {| commitId := Some "old" |};
                targetRefCommit := None |} ] Example.iteration eq_refl).
Defined.

(** ** The listing of a region *)

Lemma mapIndexFrom_offset {A B} (g : A -> Z -> B) (n k : Z) (l : list A) :
  Js.mapIndexFrom (fun x index => g x (n + index)) k l = Js.mapIndexFrom g (n + k) l.
Proof.
  revert k. induction l as [| x l IH]; intro k; simpl; [reflexivity |].
  rewrite IH. now rewrite Z.add_assoc.
Qed.

Lemma format_numberedFrom (lineSlice : list string) (startNum : Z) :
  formatLinesWithNumbers lineSlice startNum = Js.join (numberedFrom startNum lineSlice).
Proof.
  unfold formatLinesWithNumbers, Js.mapIndex, numberedFrom.
  rewrite (mapIndexFrom_offset
             (fun line i => Js.padStart 4 (Js.toString i) ++ ": " ++ line)).
  now rewrite Z.add_0_r.
Qed.

Lemma numberedFrom_nonEmpty (from : Z) (lineSlice : list string) :
  Forall (fun piece => nonEmpty piece = true) (numberedFrom from lineSlice).
Proof.
  unfold numberedFrom. revert from.
  induction lineSlice as [| line rest IH]; intro from; simpl; constructor.
  - destruct (Js.padStart 4 (Js.toString from)); reflexivity.
  - apply IH.
Qed.

Lemma nonEmpty_append (a b : string) : nonEmpty a = true -> nonEmpty (a ++ b) = true.
Proof. destruct a; [discriminate | reflexivity]. Qed.

(** Joined by line feeds and closed by [lineIf], pieces that are not empty
    are each followed by one line feed. *)
Lemma lineIf_join (pieces : list string) :
  Forall (fun piece => nonEmpty piece = true) pieces ->
  lineIf (Js.join pieces) = block pieces.
Proof.
  unfold block. induction 1 as [| x rest Hx Hrest IH]; [reflexivity |].
  cbn [map]. rewrite concat_cons, <- IH. unfold lineIf.
  destruct rest as [| y rest'].
  - unfold Js.join. simpl String.concat. rewrite Hx. simpl.
    now rewrite append_nil_r.
  - inversion Hrest as [| ? ? Hy _]; subst.
    rewrite join_cons, nonEmpty_append by exact Hx.
    assert (Hjoin : nonEmpty (Js.join (y :: rest')) = true).
    { destruct rest' as [| z rest'']; [exact Hy |].
      rewrite join_cons. now apply nonEmpty_append. }
    rewrite Hjoin. now rewrite !append_assoc.
Qed.

Lemma block_app (a b : list string) : block (a ++ b) = block a ++ block b.
Proof. unfold block. now rewrite map_app, concat_app. Qed.

Lemma zrange_app (k : Z) (n m : nat) :
  Js.zrange k (n + m) = (Js.zrange k n ++ Js.zrange (k + Z.of_nat n) m)%list.
Proof.
  revert k. induction n as [| n IH]; intro k.
  - simpl. now rewrite Z.add_0_r.
  - cbn [Nat.add Js.zrange app]. rewrite IH. do 3 f_equal. lia.
Qed.

Lemma skipn_cons_nth {A} (k : nat) (l : list A) (x d : A) (rest : list A) :
  skipn k l = x :: rest -> nth k l d = x /\ skipn (S k) l = rest.
Proof.
  revert l. induction k as [| k IH]; intros l H.
  - simpl in H. subst l. now split.
  - destruct l as [| y l]; [discriminate H |]. simpl in H.
    destruct (IH l H) as [Hnth Hskip]. split; [exact Hnth | exact Hskip].
Qed.

Lemma numberedFrom_firstn_skipn (lines : list string) (n : nat) (k : Z) :
  0 <= k ->
  numberedFrom (1 + k) (firstn n (skipn (Z.to_nat k) lines))
  = map (numberedLine lines)
      (Js.zrange k (List.length (firstn n (skipn (Z.to_nat k) lines)))).
Proof.
  revert k. induction n as [| n IH]; intros k Hk; [reflexivity |].
  destruct (skipn (Z.to_nat k) lines) as [| x rest] eqn:Hskip; [reflexivity |].
  apply (skipn_cons_nth _ _ _ "") in Hskip as [Hnth Hrest].
  cbn [firstn List.length Js.zrange map]. unfold numberedFrom at 1.
  cbn [Js.mapIndexFrom]. fold (numberedFrom (1 + k + 1) (firstn n rest)).
  f_equal.
  - unfold numberedLine. rewrite Hnth. now rewrite (Z.add_comm k 1).
  - specialize (IH (k + 1) ltac:(lia)).
    replace (Z.to_nat (k + 1)) with (S (Z.to_nat k)) in IH by lia.
    rewrite Hrest in IH. rewrite <- IH. f_equal. lia.
Qed.

Lemma listed_lines_numbered (lines : list string) (lo hi : Z) :
  0 <= lo -> 0 <= hi ->
  formatLinesWithNumbers (Js.slice lines lo hi) (1 + lo)
  = Js.join (map (numberedLine lines)
               (Js.zrange lo (Z.to_nat (Z.min hi (len lines) - lo))))
  /\ lineIf (formatLinesWithNumbers (Js.slice lines lo hi) (1 + lo))
     = listing lines lo (Z.min hi (len lines)).
Proof.
  intros Hlo Hhi.
  assert (Hnumbered :
            numberedFrom (1 + lo) (Js.slice lines lo hi)
            = map (numberedLine lines)
                (Js.zrange lo (Z.to_nat (Z.min hi (len lines) - lo)))).
  { rewrite slice_nonneg by assumption.
    rewrite numberedFrom_firstn_skipn by assumption.
    do 2 f_equal. rewrite length_firstn, length_skipn. unfold len. lia. }
  rewrite format_numberedFrom. split.
  - now rewrite Hnumbered.
  - rewrite lineIf_join by apply numberedFrom_nonEmpty.
    unfold listing. now rewrite Hnumbered.
Qed.

(** Every line of a listing carries its own number: the slice of the lines
    of index [lo] to [hi - 1], numbered from [1 + lo] as [extractContext]
    and the tool number them, is the lines of those indices each under its
    index plus one, and there are [min(hi, L) - lo] of them. *)
Theorem listed_lines_carry_their_numbers (lines : list string) (lo hi : Z) :
  0 <= lo -> 0 <= hi ->
  formatLinesWithNumbers (Js.slice lines lo hi) (1 + lo)
  = Js.join (map (numberedLine lines)
               (Js.zrange lo (Z.to_nat (Z.min hi (len lines) - lo))))
  /\ len (Js.slice lines lo hi) = Z.max 0 (Z.min hi (len lines) - lo).
Proof.
  intros Hlo Hhi. split.
  - now apply listed_lines_numbered.
  - now apply slice_length.
Qed.

Lemma listed_lines_carry_their_numbers_witness :
  formatLinesWithNumbers (Js.slice ["a"; "b"; "c"; "d"] 1 3) (1 + 1)
  = "   2: b" ++ Js.nl ++ "   3: c".
Proof.
  rewrite (proj1 (listed_lines_carry_their_numbers ["a"; "b"; "c"; "d"] 1 3
                    ltac:(lia) ltac:(lia))).
  reflexivity.
Defined.

Lemma listing_app (lines : list string) (lo mid hi : Z) :
  lo <= mid -> mid <= hi ->
  listing lines lo mid ++ listing lines mid hi = listing lines lo hi.
Proof.
  intros H1 H2. unfold listing.
  replace (Z.to_nat (hi - lo)) with (Z.to_nat (mid - lo) + Z.to_nat (hi - mid))%nat
    by lia.
  rewrite zrange_app, map_app, block_app. do 4 f_equal. lia.
Qed.

Lemma listing_nonEmpty (lines : list string) (lo hi : Z) :
  lo < hi -> nonEmpty (listing lines lo hi) = true.
Proof.
  intro H. unfold listing.
  destruct (Z.to_nat (hi - lo)) as [| n] eqn:Hn; [lia |].
  cbn [Js.zrange map]. unfold block. cbn [map]. rewrite concat_cons.
  apply nonEmpty_append. unfold numberedLine.
  destruct (Js.padStart 4 (Js.toString (lo + 1))); reflexivity.
Qed.

Lemma lineIf_empty (s : string) : nonEmpty s = false -> lineIf s = "".
Proof. unfold lineIf. now intros ->. Qed.

(** The block printed for one side of a region is one contiguous numbered
    listing.  For lines that are not empty, a region with
    [0 <= start <= end <= L] and a positive context, the context before, the
    changed lines and the context after, printed one after the other, are
    the listing of the lines of index [max(0, start - context)] to
    [min(L, end + context) - 1] under their numbers, between the two fences;
    the listing holds the region and is never empty, so the side is always
    printed. *)
Theorem region_side_is_one_listing
  (lines : list string) (start end_ context : Z) (heading : string) :
  lines <> [] -> 0 <= start <= end_ -> end_ <= len lines -> 0 < context ->
  let lo := windowStart start context in
  let hi := windowEnd lines end_ context in
  renderSide heading (extractContext lines start end_ context 1)
    = heading ++ fence ++ listing lines lo hi ++ fenceEnd
  /\ lo <= start /\ end_ <= hi /\ lo < hi.
Proof.
  intros Hlines Hstart Hend Hcontext. cbv zeta.
  assert (Hlen : 0 < len lines).
  { unfold len. destruct lines; [contradiction | simpl List.length; lia]. }
  unfold windowStart, windowEnd.
  set (lo := Z.max 0 (start - context)).
  set (hi := Z.min (len lines) (end_ + context)).
  assert (Hlo : 0 <= lo <= start) by (subst lo; lia).
  assert (Hhi : end_ <= hi <= len lines) by (subst hi; lia).
  assert (Hwide : lo < hi) by (subst lo hi; lia).
  split; [| lia].
  unfold renderSide, extractContext. cbn [before changed after].
  fold (len lines). fold lo. fold hi.
  pose proof (proj2 (listed_lines_numbered lines lo start
                       ltac:(lia) ltac:(lia))) as Hbefore.
  pose proof (proj2 (listed_lines_numbered lines start end_
                       ltac:(lia) ltac:(lia))) as Hchanged.
  pose proof (proj2 (listed_lines_numbered lines end_ hi
                       ltac:(lia) ltac:(lia))) as Hafter.
  rewrite (Z.min_l start (len lines)) in Hbefore by lia.
  rewrite (Z.min_l end_ (len lines)) in Hchanged by lia.
  rewrite (Z.min_l hi (len lines)) in Hafter by lia.
  assert (Hall : lineIf (formatLinesWithNumbers (Js.slice lines lo start) (1 + lo))
                   ++ lineIf (formatLinesWithNumbers (Js.slice lines start end_)
                                (1 + start))
                   ++ lineIf (formatLinesWithNumbers (Js.slice lines end_ hi)
                                (1 + end_))
                 = listing lines lo hi).
  { rewrite Hbefore, Hchanged, Hafter.
    rewrite (listing_app lines start end_ hi) by lia.
    apply listing_app; lia. }
  destruct (nonEmpty (formatLinesWithNumbers (Js.slice lines lo start) (1 + lo))
            || nonEmpty (formatLinesWithNumbers (Js.slice lines start end_)
                           (1 + start))
            || nonEmpty (formatLinesWithNumbers (Js.slice lines end_ hi)
                           (1 + end_))) eqn:Hshown.
  - rewrite <- Hall. now rewrite !append_assoc.
  - apply orb_false_elim in Hshown as [Hshown H3].
    apply orb_false_elim in Hshown as [H1 H2].
    rewrite !lineIf_empty in Hall by assumption.
    pose proof (listing_nonEmpty lines lo hi Hwide) as Hne.
    rewrite <- Hall in Hne. discriminate Hne.
Qed.

Lemma region_side_is_one_listing_witness :
  renderSide "T" (extractContext ["a"; "b"; "c"] 1 2 5 1)
  = "T" ++ fence ++ listing ["a"; "b"; "c"] 0 3 ++ fenceEnd.
Proof.
  apply (region_side_is_one_listing ["a"; "b"; "c"] 1 2 5 "T");
    [discriminate | lia | vm_compute; discriminate | lia].
Defined.

(** * The other tools of the file *)

(** ** Sorting and slicing *)

Lemma insert_permutation {A} (compare : A -> A -> Z) (x : A) (l : list A) :
  Permutation (JsExtra.insert compare x l) (x :: l).
Proof.
  induction l as [| y l IH]; simpl; [reflexivity |].
  destruct (0 <? compare x y); [| reflexivity].
  rewrite IH. apply perm_swap.
Qed.

Lemma sort_permutation {A} (compare : A -> A -> Z) (l : list A) :
  Permutation (JsExtra.sort compare l) l.
Proof.
  induction l as [| x l IH]; simpl; [reflexivity |].
  rewrite insert_permutation. now constructor.
Qed.

Lemma insert_sorted {A} (compare : A -> A -> Z) (x : A) (l : list A) :
  (forall a b, 0 < compare a b -> compare b a <= 0) ->
  Sorted (fun a b => compare a b <= 0) l ->
  Sorted (fun a b => compare a b <= 0) (JsExtra.insert compare x l).
Proof.
  intros Hasym Hsorted. induction l as [| y l IH]; simpl.
  - repeat constructor.
  - apply Sorted_inv in Hsorted as [Hl Hy].
    destruct (Z.ltb_spec 0 (compare x y)) as [Hgt | Hle].
    + constructor; [now apply IH |].
      destruct l as [| z l]; simpl.
      * constructor. now apply Hasym.
      * destruct (0 <? compare x z).
        -- constructor. now apply HdRel_inv in Hy.
        -- constructor. now apply Hasym.
    + constructor; [now constructor | now constructor].
Qed.

Lemma sort_sorted {A} (compare : A -> A -> Z) (l : list A) :
  (forall a b, 0 < compare a b -> compare b a <= 0) ->
  Sorted (fun a b => compare a b <= 0) (JsExtra.sort compare l).
Proof.
  intro Hasym. induction l as [| x l IH]; simpl; [constructor |].
  now apply insert_sorted.
Qed.

(** A slice is a run of consecutive elements, whatever its arguments. *)
Lemma slice_run {A} (arr : list A) (start end_ : Z) :
  exists k n, Js.slice arr start end_ = firstn n (skipn k arr).
Proof.
  unfold Js.slice, Js.sliceIndices.
  set (k := Js.relativeIndex (Z.of_nat (List.length arr)) start).
  set (final := Js.relativeIndex (Z.of_nat (List.length arr)) end_).
  assert (Hk : 0 <= k).
  { subst k. unfold Js.relativeIndex. destruct (Z.ltb_spec start 0); lia. }
  exists (Z.to_nat k), (Z.to_nat (final - k)).
  rewrite <- present_at_zrange. now rewrite Z2Nat.id by exact Hk.
Qed.

Lemma slice_at_most_top {A} (arr : list A) (skip top : Z) :
  0 <= top -> len (Js.slice arr skip (skip + top)) <= top.
Proof.
  intro Htop. unfold Js.slice, Js.sliceIndices, len.
  set (n := Z.of_nat (List.length arr)).
  set (k := Js.relativeIndex n skip).
  set (final := Js.relativeIndex n (skip + top)).
  assert (Hk : 0 <= k /\ final - k <= top).
  { subst k final. unfold Js.relativeIndex.
    destruct (Z.ltb_spec skip 0), (Z.ltb_spec (skip + top) 0); lia. }
  replace k with (Z.of_nat (Z.to_nat k)) by lia.
  rewrite present_at_zrange, length_firstn. lia.
Qed.

Lemma slice_incl {A} (arr : list A) (start end_ : Z) (x : A) :
  In x (Js.slice arr start end_) -> In x arr.
Proof.
  destruct (slice_run arr start end_) as (k & n & ->).
  intro H.
  rewrite <- (firstn_skipn k arr). apply in_or_app. right.
  rewrite <- (firstn_skipn n (skipn k arr)). apply in_or_app. now left.
Qed.

Lemma Sorted_skipn {A} (R : A -> A -> Prop) (k : nat) (l : list A) :
  Sorted R l -> Sorted R (skipn k l).
Proof.
  revert l. induction k as [| k IH]; intros l H; [exact H |].
  destruct l as [| x l]; [constructor |].
  apply IH. now apply Sorted_inv in H.
Qed.

Lemma Sorted_firstn {A} (R : A -> A -> Prop) (n : nat) (l : list A) :
  Sorted R l -> Sorted R (firstn n l).
Proof.
  revert l. induction n as [| n IH]; intros l H; [constructor |].
  destruct l as [| x l]; [constructor |].
  apply Sorted_inv in H as [Hl Hx]. simpl. constructor; [now apply IH |].
  destruct l as [| y l]; [destruct n; constructor |].
  destruct n; constructor. now apply HdRel_inv in Hx.
Qed.

Lemma Sorted_slice {A} (R : A -> A -> Prop) (arr : list A) (start end_ : Z) :
  Sorted R arr -> Sorted R (Js.slice arr start end_).
Proof.
  intro H. destruct (slice_run arr start end_) as (k & n & ->).
  now apply Sorted_firstn, Sorted_skipn.
Qed.

(** ** Branch names *)

Lemma prefix_append (p s : string) : String.prefix p (p ++ s) = true.
Proof.
  induction p as [| c p IH]; simpl; [now destruct s |].
  destruct (ascii_dec c c) as [_ | Hne]; [exact IH | now elim Hne].
Qed.

Lemma drop_append (p s : string) : JsExtra.drop (String.length p) (p ++ s) = s.
Proof. induction p as [| c p IH]; simpl; [reflexivity | exact IH]. Qed.

Lemma prefix_drop (p s : string) :
  String.prefix p s = true -> p ++ JsExtra.drop (String.length p) s = s.
Proof.
  revert s. induction p as [| c p IH]; intros s H; simpl; [reflexivity |].
  destruct s as [| d s]; [discriminate H |]. simpl in H.
  destruct (ascii_dec c d) as [-> | _]; [| discriminate H].
  now rewrite (IH s H).
Qed.

Lemma replace_prefix (p s : string) :
  String.prefix p s = true ->
  JsExtra.replace p "" s = JsExtra.drop (String.length p) s.
Proof.
  intro H. destruct s as [| c s]; cbn [JsExtra.replace]; now rewrite H.
Qed.

(** The names the function keeps before it sorts them. *)
Lemma stripped_heads (branches : list Branches.GitRef) :
  map (fun branch => JsExtra.replace Branches.headsPrefix "" branch)
    (filter (fun branch => JsExtra.startsWith branch Branches.headsPrefix)
       (flat_map
          (fun branch =>
             match Branches.name branch with
             | Some n => if nonEmpty n then [n] else []
             | None => []
             end)
          branches))
  = Branches.headNames branches.
Proof.
  unfold Branches.headNames.
  induction branches as [| branch rest IH]; [reflexivity |].
  cbn [flat_map]. rewrite filter_app, map_app, IH. f_equal.
  destruct (Branches.name branch) as [n |]; [| reflexivity].
  unfold JsExtra.startsWith.
  destruct (nonEmpty n) eqn:Hn.
  - cbn [filter]. destruct (String.prefix Branches.headsPrefix n) eqn:Hp;
      [| reflexivity].
    cbn [map]. now rewrite replace_prefix.
  - destruct n; [reflexivity | discriminate Hn].
Qed.

Lemma headNames_spec (branches : list Branches.GitRef) (n : string) :
  In n (Branches.headNames branches)
  <-> exists branch,
        In branch branches
        /\ Branches.name branch = Some (Branches.headsPrefix ++ n).
Proof.
  unfold Branches.headNames. rewrite in_flat_map. split.
  - intros (branch & Hin & Hn). exists branch. split; [exact Hin |].
    destruct (Branches.name branch) as [full |]; [| destruct Hn].
    destruct (String.prefix Branches.headsPrefix full) eqn:Hp; [| destruct Hn].
    destruct Hn as [<- | []]. now rewrite prefix_drop.
  - intros (branch & Hin & Hname). exists branch. split; [exact Hin |].
    rewrite Hname, prefix_append, drop_append. now left.
Qed.

(** The branch list holds short names of heads only: every name returned is
    the name of one of the refs without its leading [refs/heads/] (only the
    leading one is removed), there are at most [top] of them, and when [top]
    covers them all the list is a rearrangement of the short names of all
    the refs under [refs/heads/].  Refs without a name and refs outside
    [refs/heads/], tags for instance, are left out. *)
Theorem branch_list_holds_the_heads
  (localeCompare : string -> string -> Z)
  (branches : list Branches.GitRef) (top : Z) :
  0 <= top ->
  exists names,
    Branches.branchesFilterOutIrrelevantProperties localeCompare (Some branches) top
      = Some names
    /\ len names <= top
    /\ (forall n, In n names ->
          exists branch,
            In branch branches
            /\ Branches.name branch = Some (Branches.headsPrefix ++ n))
    /\ (len (Branches.headNames branches) <= top ->
        Permutation names (Branches.headNames branches)).
Proof.
  intro Htop. eexists. split; [reflexivity |].
  rewrite stripped_heads.
  set (sorted := JsExtra.sort (fun a b => localeCompare b a)
                   (Branches.headNames branches)).
  assert (Hperm : Permutation sorted (Branches.headNames branches))
    by apply sort_permutation.
  split; [| split].
  - replace top with (0 + top) at 1 by lia. now apply slice_at_most_top.
  - intros n Hin. apply slice_incl in Hin.
    apply headNames_spec. now apply (Permutation_in _ Hperm).
  - intro Hall. rewrite slice_nonneg by lia.
    rewrite skipn_O, firstn_all2; [exact Hperm |].
    unfold len in Hall. rewrite (Permutation_length Hperm). lia.
Qed.

Lemma branch_list_holds_the_heads_witness :
  Branches.branchesFilterOutIrrelevantProperties byteCompare
    (Some [ {| Branches.name := Some "refs/heads/main"; Branches.objectId := None |};
            {| Branches.name := Some "refs/tags/v1"; Branches.objectId := None |};
            {| Branches.name := None; Branches.objectId := None |};
            {| Branches.name := Some "refs/heads/refs/heads/x";
               Branches.objectId := None |} ]) 10
  = Some ["refs/heads/x"; "main"].
Proof.
  destruct (branch_list_holds_the_heads byteCompare
              [ {| Branches.name := Some "refs/heads/main"; Branches.objectId := None |};
                {| Branches.name := Some "refs/tags/v1"; Branches.objectId := None |};
                {| Branches.name := None; Branches.objectId := None |};
                {| Branches.name := Some "refs/heads/refs/heads/x";
                   Branches.objectId := None |} ] 10 ltac:(lia))
    as (names & Hnames & _).
  reflexivity.
Defined.

(** When the comparison of the locale is consistent (if [a] compares after
    [b] then [b] does not compare after [a]), the branch list is in
    descending order: no name compares before the one that follows it. *)
Theorem branch_list_is_descending
  (localeCompare : string -> string -> Z)
  (branches : list Branches.GitRef) (top : Z) :
  (forall a b, 0 < localeCompare a b -> localeCompare b a <= 0) ->
  exists names,
    Branches.branchesFilterOutIrrelevantProperties localeCompare (Some branches) top
      = Some names
    /\ Sorted (fun first next => localeCompare next first <= 0) names.
Proof.
  intro Hconsistent. eexists. split; [reflexivity |].
  apply Sorted_slice.
  apply (sort_sorted (fun a b => localeCompare b a)).
  intros a b. apply Hconsistent.
Qed.

Lemma byteCompare_consistent (a b : string) :
  0 < byteCompare a b -> byteCompare b a <= 0.
Proof.
  unfold byteCompare. rewrite (String.compare_antisym a b).
  destruct (String.compare b a); simpl; lia.
Qed.

Lemma branch_list_is_descending_witness :
  exists names,
    Branches.branchesFilterOutIrrelevantProperties byteCompare
      (Some [ {| Branches.name := Some "refs/heads/a"; Branches.objectId := None |};
              {| Branches.name := Some "refs/heads/b"; Branches.objectId := None |} ])
      5 = Some names
    /\ Sorted (fun first next => byteCompare next first <= 0) names.
Proof.
  apply (branch_list_is_descending byteCompare
           [ {| Branches.name := Some "refs/heads/a"; Branches.objectId := None |};
             {| Branches.name := Some "refs/heads/b"; Branches.objectId := None |} ]
           5 byteCompare_consistent).
Defined.

(** ** Comment pages *)

Lemma StronglySorted_filter {A} (R : A -> A -> Prop) (p : A -> bool) (l : list A) :
  StronglySorted R l -> StronglySorted R (filter p l).
Proof.
  induction 1 as [| x l Hl IH Hx]; simpl; [constructor |].
  destruct (p x); [| exact IH].
  constructor; [exact IH |].
  apply Forall_forall. intros y Hy. apply filter_In in Hy as [Hy _].
  revert y Hy. now apply Forall_forall.
Qed.

Lemma StronglySorted_map {A B} (R : A -> A -> Prop) (R' : B -> B -> Prop)
  (f : A -> B) (l : list A) :
  (forall a b, R a b -> R' (f a) (f b)) ->
  StronglySorted R l -> StronglySorted R' (map f l).
Proof.
  intro Hf. induction 1 as [| x l Hl IH Hx]; simpl; constructor; [exact IH |].
  apply Forall_forall. intros y Hy. apply in_map_iff in Hy as (a & <- & Ha).
  apply Hf. revert a Ha. now apply Forall_forall.
Qed.

Lemma Sorted_weaken {A} (R R' : A -> A -> Prop) (l : list A) :
  (forall a b, R a b -> R' a b) -> Sorted R l -> Sorted R' l.
Proof.
  intro Himpl. induction 1 as [| x l Hl IH Hx]; constructor; [exact IH |].
  destruct Hx; constructor. now apply Himpl.
Qed.

Lemma comments_sorted_by_id (comments : list Threads.Comment) :
  StronglySorted
    (fun a b => Threads.idOrZero (Threads.id a) <= Threads.idOrZero (Threads.id b))
    (JsExtra.sort
       (fun a b => Threads.idOrZero (Threads.id a) - Threads.idOrZero (Threads.id b))
       comments).
Proof.
  apply Sorted_StronglySorted.
  - intros a b c Hab Hbc. lia.
  - eapply Sorted_weaken;
      [| apply (sort_sorted
                  (fun a b => Threads.idOrZero (Threads.id a)
                              - Threads.idOrZero (Threads.id b)));
         intros a b; lia].
    intros a b. cbv beta. lia.
Qed.

(** A page of trimmed comments is in ascending order of id (a comment
    without id counting as 0), holds at most [top] comments, and each is the
    trimmed form of a comment of the thread that is not deleted.  The
    deleted comments are dropped after the page is cut. *)
Theorem trimmed_comment_page (comments : list Threads.Comment) (top skip : Z) :
  0 <= top ->
  exists page,
    Threads.trimmedCommentsPage (Some comments) top skip = Some page
    /\ page = map Threads.trimOne
                (filter Threads.notDeleted
                   (Js.slice
                      (JsExtra.sort
                         (fun a b => Threads.idOrZero (Threads.id a)
                                     - Threads.idOrZero (Threads.id b)) comments)
                      skip (skip + top)))
    /\ len page <= top
    /\ StronglySorted
         (fun a b => Threads.idOrZero (Threads.trimmedId a)
                     <= Threads.idOrZero (Threads.trimmedId b)) page
    /\ Forall (fun trimmed =>
                 exists c, In c comments
                           /\ Threads.isDeleted c <> Some true
                           /\ trimmed = Threads.trimOne c) page.
Proof.
  intro Htop. eexists. split; [reflexivity |]. split; [reflexivity |].
  set (byId := fun a b : Threads.Comment =>
                 Threads.idOrZero (Threads.id a) - Threads.idOrZero (Threads.id b)).
  set (page := Js.slice (JsExtra.sort byId comments) skip (skip + top)).
  split; [| split].
  - pose proof (slice_at_most_top (JsExtra.sort byId comments) skip top Htop)
      as Hpage. fold page in Hpage.
    unfold len in *. rewrite length_map.
    pose proof (filter_length_le Threads.notDeleted page). lia.
  - apply (StronglySorted_map
             (fun a b => Threads.idOrZero (Threads.id a)
                         <= Threads.idOrZero (Threads.id b)));
      [now intros a b |].
    apply StronglySorted_filter.
    subst page. destruct (slice_run (JsExtra.sort byId comments) skip (skip + top))
      as (k & n & ->).
    apply Sorted_StronglySorted; [intros a b c; lia |].
    apply Sorted_firstn, Sorted_skipn, StronglySorted_Sorted.
    apply comments_sorted_by_id.
  - apply Forall_forall. intros trimmed Hin.
    apply in_map_iff in Hin as (c & <- & Hc).
    apply filter_In in Hc as [Hc Hkept].
    exists c. repeat split.
    + apply slice_incl in Hc.
      now apply (Permutation_in _ (sort_permutation byId comments)).
    + unfold Threads.notDeleted in Hkept.
      destruct (Threads.isDeleted c) as [[|] |]; [discriminate | |]; discriminate.
Qed.

Lemma trimmed_comment_page_witness :
  let comment n deleted :=
    {| Threads.id := Some n; Threads.author := None; Threads.content := None;
       Threads.publishedDate := None; Threads.lastUpdatedDate := None;
       Threads.lastContentUpdatedDate := None; Threads.isDeleted := Some deleted;
       Threads.parentCommentId := None |} in
  Threads.trimmedCommentsPage
    (Some [comment 3 false; comment 1 true; comment 2 false]) 2 0
  = Some [Threads.trimOne (comment 2 false)].
Proof.
  cbv zeta.
  destruct (trimmed_comment_page
              [ {| Threads.id := Some 3; Threads.author := None;
                   Threads.content := None; Threads.publishedDate := None;
                   Threads.lastUpdatedDate := None;
                   Threads.lastContentUpdatedDate := None;
                   Threads.isDeleted := Some false;
                   Threads.parentCommentId := None |};
                {| Threads.id := Some 1; Threads.author := None;
                   Threads.content := None; Threads.publishedDate := None;
                   Threads.lastUpdatedDate := None;
                   Threads.lastContentUpdatedDate := None;
                   Threads.isDeleted := Some true;
                   Threads.parentCommentId := None |};
                {| Threads.id := Some 2; Threads.author := None;
                   Threads.content := None; Threads.publishedDate := None;
                   Threads.lastUpdatedDate := None;
                   Threads.lastContentUpdatedDate := None;
                   Threads.isDeleted := Some false;
                   Threads.parentCommentId := None |} ] 2 0 ltac:(lia))
    as (page & Hpage & Heq & _).
  rewrite Hpage, Heq. reflexivity.
Defined.

(** ** The span of a new comment thread *)

(** The handler accepts a span exactly when the start line, if given, is at
    least 1 and so is its offset; the end line is given only with a start
    line, is at least 1 and so is its offset.  What it accepts it passes on
    as it is; an offset given without its line is dropped without an
    error. *)
Theorem thread_span_acceptance (filePath : option string)
  (startLine startOffset endLine endOffset : option Z) :
  ((exists context,
       ThreadCreation.threadContextOf filePath startLine startOffset endLine endOffset
       = Done context)
   <-> (ThreadCreation.atLeastOne startLine
        /\ (startLine <> None -> ThreadCreation.atLeastOne startOffset)
        /\ (endLine <> None ->
            startLine <> None
            /\ ThreadCreation.atLeastOne endLine
            /\ ThreadCreation.atLeastOne endOffset)))
  /\ (forall context,
         ThreadCreation.threadContextOf filePath startLine startOffset endLine
           endOffset = Done context ->
         context
         = {| ThreadCreation.filePath := filePath;
              ThreadCreation.rightFileStart :=
                match startLine with
                | Some l =>
                    Some {| ThreadCreation.line := l;
                            ThreadCreation.offset := startOffset |}
                | None => None
                end;
              ThreadCreation.rightFileEnd :=
                match endLine with
                | Some l =>
                    Some {| ThreadCreation.line := l;
                            ThreadCreation.offset := endOffset |}
                | None => None
                end |}).
Proof.
  unfold ThreadCreation.threadContextOf, ThreadCreation.startOf,
    ThreadCreation.endOf, ThreadCreation.raise, ThreadCreation.atLeastOne.
  destruct startLine as [sl |], startOffset as [so |],
           endLine as [el |], endOffset as [eo |];
    repeat match goal with
      | |- context [?x <? 1] => destruct (Z.ltb_spec x 1) as [?Hlow | ?Hok]
      end;
    (split;
     [ split;
       [ intros [context Hdone]; try discriminate Hdone;
         repeat split; try lia; try discriminate; try congruence
       | intros (Hstart & Hoffset & Hend);
         try (specialize (Hoffset ltac:(discriminate)));
         try (destruct (Hend ltac:(discriminate)) as (Hgiven & Hline & Hendoffset));
         try lia; try congruence; try (eexists; reflexivity) ]
     | intros context Hdone; try discriminate Hdone; now inversion Hdone ]).
Qed.

Lemma thread_span_acceptance_witness :
  exists context,
    ThreadCreation.threadContextOf (Some "/a.ts") (Some 3) None (Some 4) (Some 1)
    = Done context.
Proof.
  apply (proj2 (proj1 (thread_span_acceptance (Some "/a.ts") (Some 3) None (Some 4)
                         (Some 1)))).
  unfold ThreadCreation.atLeastOne.
  repeat split; try lia; discriminate.
Defined.

Lemma threadContextOf_valid (filePath : option string)
  (startLine startOffset endLine endOffset : option Z)
  (context : ThreadCreation.CommentThreadContext) :
  ThreadCreation.threadContextOf filePath startLine startOffset endLine endOffset
    = Done context ->
  ThreadCreation.filePath context = filePath
  /\ ThreadCreation.validPosition (ThreadCreation.rightFileStart context)
  /\ ThreadCreation.validPosition (ThreadCreation.rightFileEnd context)
  /\ (ThreadCreation.rightFileEnd context <> None ->
      ThreadCreation.rightFileStart context <> None).
Proof.
  unfold ThreadCreation.threadContextOf, ThreadCreation.startOf,
    ThreadCreation.endOf, ThreadCreation.raise, ThreadCreation.validPosition.
  destruct startLine as [sl |], startOffset as [so |],
           endLine as [el |], endOffset as [eo |];
    repeat match goal with
      | |- context [?x <? 1] => destruct (Z.ltb_spec x 1) as [?Hlow | ?Hok]
      end;
    intro Hdone; try discriminate Hdone; inversion Hdone; subst; simpl;
    repeat split; try lia; try discriminate; try congruence.
Qed.

(** No thread is created with a span the handler rejects: [createThread] is
    called at most once, never after a validation error, and the thread it
    is given has its lines and offsets at least 1 and an end only with a
    start; the comment, the file path and the pull request are those of the
    call. *)
Theorem only_valid_spans_reach_the_api
  (Thread : Type) (createThread : ThreadCreation.ThreadRequest -> Attempt Thread)
  (stringify : Thread -> string) (statusValue : string -> option Z)
  (repositoryId : string) (pullRequestId : Z) (content : string)
  (project filePath : option string) (status : string)
  (startLine startOffset endLine endOffset : option Z) :
  let result :=
    ThreadCreation.createPullRequestThread Thread createThread stringify statusValue
      repositoryId pullRequestId content project filePath status
      startLine startOffset endLine endOffset in
  (List.length (snd result) <= 1)%nat
  /\ Forall (fun request =>
               let context := ThreadCreation.threadContext request in
               ThreadCreation.validPosition (ThreadCreation.rightFileStart context)
               /\ ThreadCreation.validPosition (ThreadCreation.rightFileEnd context)
               /\ (ThreadCreation.rightFileEnd context <> None ->
                   ThreadCreation.rightFileStart context <> None)
               /\ ThreadCreation.filePath context = filePath
               /\ ThreadCreation.commentContent request = content
               /\ ThreadCreation.threadRepository request = repositoryId
               /\ ThreadCreation.threadPullRequest request = pullRequestId
               /\ ThreadCreation.threadProject request = project)
       (snd result)
  /\ (snd result = [] <->
      exists e,
        ThreadCreation.threadContextOf filePath startLine startOffset endLine
          endOffset = Raise e).
Proof.
  cbv zeta. unfold ThreadCreation.createPullRequestThread.
  destruct (ThreadCreation.threadContextOf filePath startLine startOffset endLine
              endOffset) as [context | e] eqn:Hcontext.
  - apply threadContextOf_valid in Hcontext as (Hpath & Hstart & Hend & Hboth).
    match goal with
    | |- context [createThread ?r] => destruct (createThread r)
    end; cbn [snd List.length];
      (split; [lia |]); (split; [| split; [discriminate | intros [? H]; discriminate H]]);
      constructor; [| constructor | | constructor]; cbn; repeat split; assumption.
  - cbn [snd List.length]. split; [lia |]. split; [constructor |].
    split; [intros _; now exists e | reflexivity].
Qed.

Lemma only_valid_spans_reach_the_api_witness :
  snd (ThreadCreation.createPullRequestThread unit (fun _ => Done tt) (fun _ => "{}")
         (fun _ => Some 1) "repo" 7 "note" None (Some "/a.ts") "Active"
         (Some 0) None None None) = [].
Proof.
  apply (proj2 (proj2 (only_valid_spans_reach_the_api unit (fun _ => Done tt)
                         (fun _ => "{}") (fun _ => Some 1) "repo" 7 "note" None
                         (Some "/a.ts") "Active" (Some 0) None None None))).
  eexists. reflexivity.
Defined.

(** ** Removing reviewers *)

Lemma removeEach_log (deletePullRequestReviewer : string -> Z -> string -> Attempt unit)
  (repositoryId : string) (pullRequestId : Z) (ids : list string)
  (log : list Reviewers.Call) :
  Reviewers.removeEach deletePullRequestReviewer repositoryId pullRequestId ids log
  = (fst (Reviewers.removeEach deletePullRequestReviewer repositoryId pullRequestId
            ids []),
     (log ++ snd (Reviewers.removeEach deletePullRequestReviewer repositoryId
                    pullRequestId ids []))%list).
Proof.
  revert log. induction ids as [| reviewerId rest IH]; intro log; simpl.
  - now rewrite app_nil_r.
  - destruct (deletePullRequestReviewer repositoryId pullRequestId reviewerId).
    + rewrite IH. rewrite (IH [Reviewers.DeleteReviewer reviewerId]).
      cbn [fst snd]. now rewrite <- app_assoc.
    + reflexivity.
Qed.

Lemma removeEach_all (deletePullRequestReviewer : string -> Z -> string -> Attempt unit)
  (repositoryId : string) (pullRequestId : Z) (ids : list string) :
  Forall (fun reviewerId =>
            exists u, deletePullRequestReviewer repositoryId pullRequestId reviewerId
                      = Done u) ids ->
  Reviewers.removeEach deletePullRequestReviewer repositoryId pullRequestId ids []
  = (Done tt, map Reviewers.DeleteReviewer ids).
Proof.
  induction 1 as [| reviewerId rest [u Hu] _ IH]; [reflexivity |].
  simpl. rewrite Hu, removeEach_log, IH. reflexivity.
Qed.

Lemma removeEach_fails (deletePullRequestReviewer : string -> Z -> string -> Attempt unit)
  (repositoryId : string) (pullRequestId : Z)
  (removed : list string) (failing : string) (left : list string) (e : Raised) :
  Forall (fun reviewerId =>
            exists u, deletePullRequestReviewer repositoryId pullRequestId reviewerId
                      = Done u) removed ->
  deletePullRequestReviewer repositoryId pullRequestId failing = Raise e ->
  Reviewers.removeEach deletePullRequestReviewer repositoryId pullRequestId
    (removed ++ failing :: left) []
  = (Raise e, map Reviewers.DeleteReviewer (removed ++ [failing])).
Proof.
  intros Hremoved Hfailing.
  induction Hremoved as [| reviewerId rest [u Hu] _ IH]; simpl.
  - now rewrite Hfailing.
  - rewrite Hu, removeEach_log, IH. reflexivity.
Qed.

(** Reviewers are removed one at a time, in the order given.  When every
    deletion succeeds, each reviewer was deleted once and the answer names
    them all.  When one deletion is rejected, the handler rejects with its
    error: the reviewers before it are already removed, those after it are
    never asked for, and no answer says so. *)
Theorem removal_stops_at_the_first_failure
  (Result : Type)
  (createPullRequestReviewers : list string -> string -> Z -> Attempt Result)
  (deletePullRequestReviewer : string -> Z -> string -> Attempt unit)
  (stringify : Result -> string)
  (repositoryId : string) (pullRequestId : Z) (action : string) :
  action <> "add" ->
  let run ids :=
    Reviewers.updatePullRequestReviewers Result createPullRequestReviewers
      deletePullRequestReviewer stringify repositoryId pullRequestId ids action in
  let succeeds reviewerId :=
    exists u, deletePullRequestReviewer repositoryId pullRequestId reviewerId = Done u in
  (forall ids,
      Forall succeeds ids ->
      run ids
      = (Done {| text := "Reviewers with IDs " ++ String.concat ", " ids
                           ++ " removed from pull request "
                           ++ Js.toString pullRequestId ++ ".";
                 isError := false |},
         map Reviewers.DeleteReviewer ids))
  /\ (forall removed failing left e,
         Forall succeeds removed ->
         deletePullRequestReviewer repositoryId pullRequestId failing = Raise e ->
         run (removed ++ failing :: left)%list
         = (Raise e, map Reviewers.DeleteReviewer (removed ++ [failing]))).
Proof.
  intro Haction. cbv zeta. unfold Reviewers.updatePullRequestReviewers.
  apply String.eqb_neq in Haction. rewrite Haction. split.
  - intros ids Hall. now rewrite removeEach_all.
  - intros removed failing left e Hremoved Hfailing.
    now rewrite (removeEach_fails _ _ _ removed failing left e).
Qed.

Lemma removal_stops_at_the_first_failure_witness :
  Reviewers.updatePullRequestReviewers unit
    (fun _ _ _ => Done tt)
    (fun _ _ reviewerId =>
       if String.eqb reviewerId "b" then Raise (RaisedError "gone") else Done tt)
    (fun _ => "") "repo" 7 ["a"; "b"; "c"] "remove"
  = (Raise (RaisedError "gone"),
     [Reviewers.DeleteReviewer "a"; Reviewers.DeleteReviewer "b"]).
Proof.
  apply (proj2 (removal_stops_at_the_first_failure unit
                  (fun _ _ _ => Done tt)
                  (fun _ _ reviewerId =>
                     if String.eqb reviewerId "b" then Raise (RaisedError "gone")
                     else Done tt)
                  (fun _ => "") "repo" 7 "remove" ltac:(discriminate))
           ["a"] "b" ["c"] (RaisedError "gone")).
  - repeat constructor. now exists tt.
  - reflexivity.
Defined.

(** ** Updating a pull request *)

(** An update needs a field: when none of the five is given, the handler
    answers with its error text under [isError] and does not call the API;
    as soon as one is given, an empty title for instance, it calls
    [updatePullRequest] once, with the fields given and no other, the
    status [Active] sent as the value of [PullRequestStatus.Active] and any
    other status as the value of [PullRequestStatus.Abandoned]. *)
Theorem update_needs_a_field
  (activeValue abandonedValue : Z) (PullRequest : Type)
  (updatePullRequest :
     PullRequestUpdate.UpdateRequest -> string -> Z -> Attempt PullRequest)
  (stringify : PullRequest -> string)
  (repositoryId : string) (pullRequestId : Z)
  (title description : option string) (isDraft : option bool)
  (targetRefName status : option string) :
  let result :=
    PullRequestUpdate.updatePullRequestTool activeValue abandonedValue PullRequest
      updatePullRequest stringify repositoryId pullRequestId title description
      isDraft targetRefName status in
  let nothing :=
    title = None /\ description = None /\ isDraft = None
    /\ targetRefName = None /\ status = None in
  (nothing ->
   result = (Done {| text := PullRequestUpdate.nothingToUpdate; isError := true |}, []))
  /\ (~ nothing ->
      exists request,
        snd result = [request]
        /\ PullRequestUpdate.title request = title
        /\ PullRequestUpdate.description request = description
        /\ PullRequestUpdate.isDraft request = isDraft
        /\ PullRequestUpdate.targetRefName request = targetRefName
        /\ PullRequestUpdate.status request
           = match status with
             | Some s =>
                 Some (if String.eqb s "Active" then activeValue else abandonedValue)
             | None => None
             end
        /\ fst result
           = match updatePullRequest request repositoryId pullRequestId with
             | Done updated => Done {| text := stringify updated; isError := false |}
             | Raise e => Raise e
             end).
Proof.
  cbv zeta. unfold PullRequestUpdate.updatePullRequestTool. split.
  - intros (-> & -> & -> & -> & ->). reflexivity.
  - intro Hsome.
    set (request := PullRequestUpdate.updateRequestOf activeValue abandonedValue
                      title description isDraft targetRefName status).
    assert (Hkeys : (len (PullRequestUpdate.keys request) =? 0) = false).
    { apply Z.eqb_neq. subst request.
      unfold PullRequestUpdate.keys, PullRequestUpdate.updateRequestOf, len.
      cbn [PullRequestUpdate.title PullRequestUpdate.description
           PullRequestUpdate.isDraft PullRequestUpdate.targetRefName
           PullRequestUpdate.status].
      destruct title, description, isDraft, targetRefName, status;
        cbn [app List.length]; try lia.
      exfalso. apply Hsome. repeat split. }
    rewrite Hkeys. exists request.
    destruct (updatePullRequest request repositoryId pullRequestId);
      cbn [fst snd]; repeat split; try reflexivity;
      subst request; cbn; destruct status; try discriminate; reflexivity.
Qed.

Lemma update_needs_a_field_witness :
  snd (PullRequestUpdate.updatePullRequestTool 1 2 unit (fun _ _ _ => Done tt)
         (fun _ => "{}") "repo" 7 (Some "") None None None None)
  = [ {| PullRequestUpdate.title := Some ""; PullRequestUpdate.description := None;
         PullRequestUpdate.isDraft := None; PullRequestUpdate.targetRefName := None;
         PullRequestUpdate.status := None |} ].
Proof.
  destruct (proj2 (update_needs_a_field 1 2 unit (fun _ _ _ => Done tt)
                     (fun _ => "{}") "repo" 7 (Some "") None None None None))
    as (request & Hcalls & _).
  - intros (Htitle & _). discriminate Htitle.
  - reflexivity.
Defined.

(** ** Work items *)

Lemma splitOn_cons (sep : ascii) (s : string) :
  exists piece pieces, JsExtra.splitOn sep s = piece :: pieces.
Proof.
  induction s as [| c rest IH]; simpl.
  - now exists "", [].
  - destruct (Ascii.eqb c sep).
    + now exists "", (JsExtra.splitOn sep rest).
    + destruct IH as (piece & pieces & ->). now exists (String c piece), pieces.
Qed.

Lemma splitOn_pieces (sep : ascii) (s : string) :
  String.concat (String sep "") (JsExtra.splitOn sep s) = s
  /\ len (JsExtra.splitOn sep s) = WorkItems.occurrences sep s + 1
  /\ Forall (fun piece => WorkItems.occurrences sep piece = 0)
       (JsExtra.splitOn sep s).
Proof.
  induction s as [| c rest (IHjoin & IHlen & IHfree)]; simpl.
  - repeat split. repeat constructor.
  - destruct (splitOn_cons sep rest) as (piece & pieces & Hs).
    rewrite Hs in *.
    destruct (Ascii.eqb c sep) eqn:Hc.
    + apply Ascii.eqb_eq in Hc. subst c. repeat split.
      * cbn [String.concat]. cbn [String.concat] in IHjoin.
        rewrite IHjoin. reflexivity.
      * unfold len in *. cbn [List.length] in *. lia.
      * constructor; [reflexivity | exact IHfree].
    + apply Forall_cons_iff in IHfree as [Hpiece Hpieces]. repeat split.
      * rewrite <- IHjoin. destruct pieces; reflexivity.
      * unfold len in *. cbn [List.length] in *. lia.
      * constructor; [| exact Hpieces]. simpl. rewrite Hc. lia.
Qed.

(** The work items of a new pull request are cut at every space: without
    work items, or with an empty text, there is no reference; otherwise there
    is one reference per piece, one more than the text has spaces, the
    pieces hold no space and spell the text again when joined by spaces, and
    each id is its piece trimmed.  Two spaces in a row, or a space at the
    end, give a reference for an empty piece. *)
Theorem work_items_are_cut_at_spaces (trim : string -> string) :
  WorkItems.workItemRefs trim None = []
  /\ WorkItems.workItemRefs trim (Some "") = []
  /\ (forall w, w <> "" ->
        exists pieces,
          WorkItems.workItemRefs trim (Some w) = map trim pieces
          /\ String.concat " " pieces = w
          /\ len pieces = WorkItems.occurrences " " w + 1
          /\ Forall (fun piece => WorkItems.occurrences " " piece = 0) pieces).
Proof.
  split; [reflexivity |]. split; [reflexivity |].
  intros w Hw. exists (JsExtra.splitOn " " w).
  destruct (splitOn_pieces " " w) as (Hjoin & Hlen & Hfree).
  repeat split; try assumption.
  unfold WorkItems.workItemRefs.
  destruct w; [contradiction | reflexivity].
Qed.

Lemma work_items_are_cut_at_spaces_witness :
  WorkItems.workItemRefs (fun s => s) (Some "12  34 ") = ["12"; ""; "34"; ""].
Proof.
  destruct (proj2 (proj2 (work_items_are_cut_at_spaces (fun s => s))) "12  34 "
              ltac:(discriminate)) as (pieces & Hrefs & _).
  reflexivity.
Defined.

(** ** Blocks of a diff *)

Lemma fold_left_append {A} (f : A -> string) (l : list A) (acc : string) :
  fold_left (fun markdown x => markdown ++ f x) l acc
  = acc ++ String.concat "" (map f l).
Proof.
  revert acc. induction l as [| x l IH]; intro acc; cbn [fold_left map].
  - simpl. now rewrite append_nil_r.
  - rewrite IH, concat_cons. now rewrite append_assoc.
Qed.

Lemma existsb_isChanged (parts : list Change) :
  existsb isChanged parts = false
  <-> Forall (fun p => kindOf p = Unchanged) parts.
Proof.
  induction parts as [| p rest IH]; simpl.
  - split; [constructor | reflexivity].
  - unfold isChanged at 1, kindOf at 1. rewrite Forall_cons_iff, <- IH.
    destruct (added p), (removed p); simpl; intuition discriminate.
Qed.

(** The diff of a file is printed as one block per added or removed part of
    the diff, in their order, and as the no-difference fallback exactly when
    the diff has no such part. *)
Theorem one_block_per_changed_part
  (diffLines : string -> string -> list Change) (beforeContent afterContent : string) :
  let parts := diffLines beforeContent afterContent in
  let beforeLines := Js.split beforeContent in
  let afterLines := Js.split afterContent in
  renderDiff diffLines beforeContent afterContent
  = (if existsb isChanged parts
     then String.concat ""
            (map (renderRegion beforeLines afterLines) (regionsOfParts parts))
     else renderFallback beforeLines afterLines)
  /\ List.length (regionsOfParts parts) = List.length (filter isChanged parts).
Proof.
  cbv zeta. split.
  - unfold renderDiff.
    destruct (existsb isChanged (diffLines beforeContent afterContent)) eqn:Hany.
    + destruct (regionsOfParts (diffLines beforeContent afterContent))
        as [| r rest] eqn:Hregions.
      * rewrite regionsOfParts_regionsFrom in Hregions.
        apply regionsFrom_unchanged, existsb_isChanged in Hregions. congruence.
      * replace (len (r :: rest) =? 0) with false
          by (symmetry; apply Z.eqb_neq; unfold len; simpl List.length; lia).
        now rewrite fold_left_append.
    + apply existsb_isChanged in Hany.
      apply (regionsFrom_unchanged _ 0 0) in Hany.
      rewrite regionsOfParts_regionsFrom, Hany. reflexivity.
  - rewrite regionsOfParts_regionsFrom.
    symmetry. eapply Forall2_length. apply regionsFrom_regionOf.
Qed.
